(** * StudioManager (APP-QUANTIC-LAB): synchronisation and derived state

    A shallow embedding of the logic of [src/App.jsx] (and of its two
    near-duplicate variants): the Firestore snapshot callbacks, the
    write helpers [addData] / [updateStatus] / [deleteItem], the stock
    buttons, the [stats] memo and the dashboard selections.

    Conventions.
    - A JavaScript object used as a record is a [gmap string value].
    - Field values are the primitives this application reads and writes:
      undefined (a missing property), null, booleans, numbers, strings.
    - Numbers are IEEE-754 doubles in the browser.  Here a finite number
      is an exact rational, so rounding and overflow to infinity are not
      modelled; NaN, the two infinities and the negative zero are.  On
      whole numbers of magnitude up to 2^53 sums and differences that
      stay in that range are the same in both; statements about larger
      or fractional amounts hold of the model's arithmetic.  Likewise a
      numeric text is read as the exact decimal it spells, never rounded
      and never turned into Infinity or 0 by its size.
    - A string is the UTF-8 text of a JavaScript string.  Where the
      language looks at UTF-16 code units (comparison of two strings,
      trimming of white space) the bytes are decoded first. *)

From Stdlib Require Import ZArith QArith Qcanon Ascii String List Bool Lia.
From stdpp Require Import base numbers strings list gmap.
Import ListNotations.

(** ** JavaScript numbers *)

Module JsNum.

Inductive number : Type :=
  | NaN
  | PosInf
  | NegInf
  | NegZero
  | Fin (q : Qc).

Definition zero : number := Fin (Qc_of_Z 0).
Definition one : number := Fin (Qc_of_Z 1).
Definition of_Z (z : Z) : number := Fin (Qc_of_Z z).

#[global] Instance number_eq_dec : EqDecision number.
Proof. solve_decision. Defined.

Definition is_nan (x : number) : bool :=
  match x with NaN => true | _ => false end.

(** [Number::unaryMinus]. *)
Definition neg (x : number) : number :=
  match x with
  | NaN => NaN
  | PosInf => NegInf
  | NegInf => PosInf
  | NegZero => zero
  | Fin q => if decide (q = Qc_of_Z 0) then NegZero else Fin (- q)%Qc
  end.

(** [Number::add]: the sum of two opposite infinities is NaN, the sum of
    two negative zeros is the negative zero, every other zero sum is +0. *)
Definition add (x y : number) : number :=
  match x, y with
  | NaN, _ | _, NaN => NaN
  | PosInf, NegInf | NegInf, PosInf => NaN
  | PosInf, _ | _, PosInf => PosInf
  | NegInf, _ | _, NegInf => NegInf
  | NegZero, NegZero => NegZero
  | NegZero, Fin q | Fin q, NegZero => Fin q
  | Fin a, Fin b => Fin (a + b)%Qc
  end.

(** [Number::subtract] is [x + (-y)]. *)
Definition sub (x y : number) : number := add x (neg y).

(** [Number::lessThan]: [None] is the "undefined" answer given when an
    operand is NaN; the two zeros are not ordered. *)
Definition lessThan (x y : number) : option bool :=
  match x, y with
  | NaN, _ | _, NaN => None
  | PosInf, _ => Some false
  | _, PosInf => Some true
  | _, NegInf => Some false
  | NegInf, _ => Some true
  | NegZero, NegZero => Some false
  | NegZero, Fin q => Some (bool_decide (Qc_of_Z 0 < q)%Qc)
  | Fin q, NegZero => Some (bool_decide (q < Qc_of_Z 0)%Qc)
  | Fin a, Fin b => Some (bool_decide (a < b)%Qc)
  end.

(** [ToBoolean] on a number: +0, -0 and NaN are falsy. *)
Definition to_boolean (x : number) : bool :=
  match x with
  | NaN | NegZero => false
  | PosInf | NegInf => true
  | Fin q => negb (bool_decide (q = Qc_of_Z 0))
  end.

(** [a || b] when both operands are numbers. *)
Definition or_else (a b : number) : number :=
  if to_boolean a then a else b.

(** [Math.max]: NaN if an argument is NaN, and +0 is larger than -0. *)
Definition max_step (highest x : number) : number :=
  match highest, x with
  | NaN, _ => NaN
  | _, NaN => NaN
  | NegZero, Fin q =>
      if decide (q = Qc_of_Z 0) then x
      else if lessThan highest x is Some true then x else highest
  | _, _ => if lessThan highest x is Some true then x else highest
  end.

Definition math_max (args : list number) : number :=
  fold_left max_step args NegInf.

End JsNum.
Export JsNum.

(** ** JavaScript values and coercions *)

Module JsValue.

Inductive value : Type :=
  | VUndefined
  | VNull
  | VBool (b : bool)
  | VNum (n : number)
  | VStr (s : string).

#[global] Instance value_eq_dec : EqDecision value.
Proof. solve_decision. Defined.

(** *** [StringToNumber] *)

Definition continuation (c : ascii) : option N :=
  let n := N_of_ascii c in
  if (128 <=? n)%N && (n <? 192)%N then Some (n - 128)%N else None.

(** The UTF-16 code units of a text given by its UTF-8 bytes; a character
    beyond U+FFFF gives a surrogate pair. A byte that does not start a
    well-formed sequence is kept as a unit of its own. *)
Fixpoint code_units (s : list ascii) : list N :=
  match s with
  | [] => []
  | b :: r =>
      let n := N_of_ascii b in
      if (n <? 128)%N then n :: code_units r
      else if (192 <=? n)%N && (n <? 224)%N then
        match r with
        | c1 :: r1 =>
            match continuation c1 with
            | Some x1 => ((n - 192) * 64 + x1)%N :: code_units r1
            | None => n :: code_units r
            end
        | [] => n :: code_units r
        end
      else if (224 <=? n)%N && (n <? 240)%N then
        match r with
        | c1 :: c2 :: r2 =>
            match continuation c1, continuation c2 with
            | Some x1, Some x2 =>
                ((n - 224) * 4096 + x1 * 64 + x2)%N :: code_units r2
            | _, _ => n :: code_units r
            end
        | _ => n :: code_units r
        end
      else if (240 <=? n)%N && (n <? 248)%N then
        match r with
        | c1 :: c2 :: c3 :: r3 =>
            match continuation c1, continuation c2, continuation c3 with
            | Some x1, Some x2, Some x3 =>
                let cp :=
                  ((n - 240) * 262144 + x1 * 4096 + x2 * 64 + x3)%N in
                if (65536 <=? cp)%N then
                  (55296 + (cp - 65536) / 1024)%N
                  :: (56320 + (cp - 65536) mod 1024)%N :: code_units r3
                else cp :: code_units r3
            | _, _, _ => n :: code_units r
            end
        | _ => n :: code_units r
        end
      else n :: code_units r
  end.

(** [StrWhiteSpaceChar]: the white space and line terminators that
    [StringToNumber] strips from both ends. *)
Definition is_white_space (u : N) : bool :=
  ((9 <=? u) && (u <=? 13) || (u =? 32) || (u =? 160) || (u =? 5760)
   || (8192 <=? u) && (u <=? 8202) || (u =? 8232) || (u =? 8233)
   || (u =? 8239) || (u =? 8287) || (u =? 12288) || (u =? 65279))%N.

Fixpoint trim_start (s : list N) : list N :=
  match s with
  | c :: s' => if is_white_space c then trim_start s' else s
  | [] => []
  end.

Definition trim (s : list N) : list N :=
  rev (trim_start (rev (trim_start s))).

(** The value of a digit in a radix up to sixteen. *)
Definition digit_val (radix : Z) (c : ascii) : option Z :=
  let n := Z.of_nat (nat_of_ascii c) in
  let d :=
    if (48 <=? n)%Z && (n <=? 57)%Z then Some (n - 48)%Z
    else if (97 <=? n)%Z && (n <=? 102)%Z then Some (n - 87)%Z
    else if (65 <=? n)%Z && (n <=? 70)%Z then Some (n - 55)%Z
    else None in
  match d with
  | Some k => if (k <? radix)%Z then Some k else None
  | None => None
  end.

(** Longest prefix of digits, with the digits consumed and the rest. *)
Fixpoint span_digits (radix : Z) (s : list ascii) : list Z * list ascii :=
  match s with
  | c :: s' =>
      match digit_val radix c with
      | Some d => let '(ds, r) := span_digits radix s' in (d :: ds, r)
      | None => ([], s)
      end
  | [] => ([], [])
  end.

Definition digits_value (radix : Z) (ds : list Z) : Z :=
  fold_left (fun acc d => (acc * radix + d)%Z) ds 0%Z.

Definition pow10 (e : Z) : Qc :=
  if (0 <=? e)%Z then Qc_of_Z (10 ^ e)
  else (/ Qc_of_Z (10 ^ (- e)))%Qc.

(** A sign, if any, and the rest. [true] is the minus sign. *)
Definition read_sign (s : list ascii) : bool * list ascii :=
  match s with
  | "+"%char :: r => (false, r)
  | "-"%char :: r => (true, r)
  | _ => (false, s)
  end.

(** [ExponentPart], optional: the exponent and nothing after it. *)
Definition read_exponent (s : list ascii) : option Z :=
  match s with
  | [] => Some 0%Z
  | c :: r =>
      if bool_decide (c = "e"%char) || bool_decide (c = "E"%char) then
        let '(sg, r1) := read_sign r in
        match span_digits 10 r1 with
        | ((_ :: _) as ds, []) =>
            let e := digits_value 10 ds in
            Some (if sg then (- e)%Z else e)
        | _ => None
        end
      else None
  end.

(** [StrUnsignedDecimalLiteral] without the [Infinity] case. *)
Definition read_unsigned_decimal (s : list ascii) : option Qc :=
  let '(ip, r) := span_digits 10 s in
  let '(fp, r1) :=
    match r with
    | "."%char :: r' => span_digits 10 r'
    | _ => ([], r)
    end in
  match ip, fp with
  | [], [] => None
  | _, _ =>
      match read_exponent r1 with
      | Some e =>
          let m := digits_value 10 (ip ++ fp) in
          Some (Qc_of_Z m * pow10 (e - Z.of_nat (length fp)))%Qc
      | None => None
      end
  end.

Definition infinity_lit : list ascii := list_ascii_of_string "Infinity".

Definition read_decimal (s : list ascii) : number :=
  let '(sg, r) := read_sign s in
  if decide (r = infinity_lit) then (if sg then NegInf else PosInf)
  else match read_unsigned_decimal r with
       | Some q => if sg then neg (Fin q) else Fin q
       | None => NaN
       end.

(** [NonDecimalIntegerLiteral]: 0x, 0o and 0b prefixes, never signed. *)
Definition read_non_decimal (s : list ascii) : option number :=
  match s with
  | "0"%char :: p :: r =>
      let radix :=
        if bool_decide (p = "x"%char) || bool_decide (p = "X"%char) then Some 16%Z
        else if bool_decide (p = "o"%char) || bool_decide (p = "O"%char) then Some 8%Z
        else if bool_decide (p = "b"%char) || bool_decide (p = "B"%char) then Some 2%Z
        else None in
      match radix with
      | Some rdx =>
          match span_digits rdx r with
          | ((_ :: _) as ds, []) => Some (of_Z (digits_value rdx ds))
          | _ => Some NaN
          end
      | None => None
      end
  | _ => None
  end.

(** Every character of a numeric literal is ASCII, so a text with any
    other character left after trimming is not a number. *)
Definition StringToNumber (s : string) : number :=
  let u := trim (code_units (list_ascii_of_string s)) in
  match u with
  | [] => zero
  | _ =>
      if forallb (fun c => (c <? 128)%N) u then
        let t := map ascii_of_N u in
        match read_non_decimal t with
        | Some n => n
        | None => read_decimal t
        end
      else NaN
  end.

(** *** [ToNumber], which is what [Number(v)] computes *)

Definition ToNumber (v : value) : number :=
  match v with
  | VUndefined => NaN
  | VNull => zero
  | VBool b => if b then one else zero
  | VNum n => n
  | VStr s => StringToNumber s
  end.

Definition Number := ToNumber.

(** *** Strict equality, used by [!==] *)

Definition number_equal (x y : number) : bool :=
  match x, y with
  | NaN, _ | _, NaN => false
  | NegZero, Fin q | Fin q, NegZero => bool_decide (q = Qc_of_Z 0)
  | _, _ => bool_decide (x = y)
  end.

Definition strict_eq (a b : value) : bool :=
  match a, b with
  | VUndefined, VUndefined => true
  | VNull, VNull => true
  | VBool x, VBool y => bool_decide (x = y)
  | VNum x, VNum y => number_equal x y
  | VStr x, VStr y => bool_decide (x = y)
  | _, _ => false
  end.

Definition strict_neq (a b : value) : bool := negb (strict_eq a b).

(** *** The relational operator [<=] *)

(** Order of two sequences of code units: [true] when [a] is strictly
    before [b]. *)
Fixpoint units_lt (a b : list N) : bool :=
  match a, b with
  | _, [] => false
  | [], _ :: _ => true
  | x :: a', y :: b' =>
      if decide (x = y) then units_lt a' b' else (x <? y)%N
  end.

(** Code-unit order on strings. *)
Definition string_lt (a b : list ascii) : bool :=
  units_lt (code_units a) (code_units b).

(** [IsLessThan]: two strings are compared as strings, anything else
    as numbers. *)
Definition is_less_than (a b : value) : option bool :=
  match a, b with
  | VStr x, VStr y =>
      Some (string_lt (list_ascii_of_string x) (list_ascii_of_string y))
  | _, _ => lessThan (ToNumber a) (ToNumber b)
  end.

(** [a <= b] is "not [b < a]", and false when that is undefined. *)
Definition js_le (a b : value) : bool :=
  match is_less_than b a with
  | Some false => true
  | _ => false
  end.

End JsValue.
Export JsValue.


(** ** Objects and arrays *)

Module JsObject.

(** Property read [o.k]: a missing property reads as undefined. *)
Definition get (o : gmap string value) (k : string) : value :=
  default VUndefined (o !! k).

(** Object spread [{ ...a, ...b }]: the properties of [b] win. *)
Definition spread (a b : gmap string value) : gmap string value := b ∪ a.

End JsObject.
Export JsObject.

Module JsArray.

(** [arr.reduce(f, init)]: a fold from the left. *)
Definition reduce {A B : Type} (f : B → A → B) (init : B) (arr : list A) : B :=
  fold_left f arr init.

(** [arr.slice(start, end)], with the relative-index rules for negative
    and out-of-range arguments. *)
Definition slice {A : Type} (start end_ : Z) (arr : list A) : list A :=
  let len := Z.of_nat (length arr) in
  let k := if (start <? 0)%Z then Z.max (len + start) 0 else Z.min start len in
  let final := if (end_ <? 0)%Z then Z.max (len + end_) 0 else Z.min end_ len in
  take (Z.to_nat (Z.max (final - k) 0)) (drop (Z.to_nat k) arr).

End JsArray.
Export JsArray.

(** ** The store as the application sees it *)

Module Store.

(** A document of a query snapshot: [doc.id] and [doc.data()]. *)
Record doc : Type := Doc {
  doc_id : string;
  doc_data : gmap string value
}.

(** The write calls the application makes: [addDoc], [updateDoc],
    [deleteDoc] under [artifacts/<appId>/public/data/<collection>], with
    the arguments as the application passes them. The document id of a
    reference is whatever value the caller reads from its record; what
    the SDK makes of an id that is not a plain path segment is not
    modelled. *)
Inductive write : Type :=
  | AddDoc (col : string) (fields : gmap string value)
  | UpdateDoc (col : string) (id : value) (fields : gmap string value)
  | DeleteDoc (col : string) (id : value).

(** How the store settles an awaited write. *)
Inductive outcome : Type :=
  | Acknowledged
  | Rejected (err : string).

(** Which of the three snapshot callbacks a listener was given. *)
Inductive listener : Type :=
  | OrdersListener
  | ExpensesListener
  | InventoryListener.

#[global] Instance listener_eq_dec : EqDecision listener.
Proof. solve_decision. Defined.

End Store.
Export Store.

(** ** The component [App] *)

Module App.

(** The record the snapshot callbacks build from a document:
    [{ id: doc.id, ...doc.data() }]. *)
Definition to_record (d : doc) : gmap string value :=
  spread {[ "id" := VStr (doc_id d) ]} (doc_data d).

(** The cleanup closure of the subscription effect holds the three
    unsubscribe handles. *)
Record subscription : Type := Subscription {
  unsubOrders : nat;
  unsubExpenses : nat;
  unsubInventory : nat
}.

(** React state of the component, the module-level [db] handle, and the
    part of the world the component talks to: the listeners the store
    currently serves, the writes submitted, the console. *)
Record state : Type := State {
  mounted : bool;
  db : bool;
  user : option string;
  orders : list (gmap string value);
  expenses : list (gmap string value);
  inventory : list (gmap string value);
  isModalOpen : option string;
  orderForm : gmap string value;
  expenseForm : gmap string value;
  inventoryForm : gmap string value;
  cleanup : option subscription;
  listeners : gmap nat listener;
  next_handle : nat;
  outbox : list write;
  console : list string
}.

Definition setOrders (v : list (gmap string value)) (st : state) : state :=
  State (mounted st) (db st) (user st) v (expenses st) (inventory st)
    (isModalOpen st) (orderForm st) (expenseForm st) (inventoryForm st)
    (cleanup st) (listeners st) (next_handle st) (outbox st) (console st).

Definition setExpenses (v : list (gmap string value)) (st : state) : state :=
  State (mounted st) (db st) (user st) (orders st) v (inventory st)
    (isModalOpen st) (orderForm st) (expenseForm st) (inventoryForm st)
    (cleanup st) (listeners st) (next_handle st) (outbox st) (console st).

Definition setInventory (v : list (gmap string value)) (st : state) : state :=
  State (mounted st) (db st) (user st) (orders st) (expenses st) v
    (isModalOpen st) (orderForm st) (expenseForm st) (inventoryForm st)
    (cleanup st) (listeners st) (next_handle st) (outbox st) (console st).

Definition setIsModalOpen (v : option string) (st : state) : state :=
  State (mounted st) (db st) (user st) (orders st) (expenses st) (inventory st)
    v (orderForm st) (expenseForm st) (inventoryForm st)
    (cleanup st) (listeners st) (next_handle st) (outbox st) (console st).

Definition setUser (v : option string) (st : state) : state :=
  State (mounted st) (db st) v (orders st) (expenses st) (inventory st)
    (isModalOpen st) (orderForm st) (expenseForm st) (inventoryForm st)
    (cleanup st) (listeners st) (next_handle st) (outbox st) (console st).

Definition console_error (msg : string) (st : state) : state :=
  State (mounted st) (db st) (user st) (orders st) (expenses st) (inventory st)
    (isModalOpen st) (orderForm st) (expenseForm st) (inventoryForm st)
    (cleanup st) (listeners st) (next_handle st) (outbox st)
    (console st ++ [msg]).

Definition submit (w : write) (st : state) : state :=
  State (mounted st) (db st) (user st) (orders st) (expenses st) (inventory st)
    (isModalOpen st) (orderForm st) (expenseForm st) (inventoryForm st)
    (cleanup st) (listeners st) (next_handle st) (outbox st ++ [w])
    (console st).

Definition set_subscriptions (c : option subscription)
    (ls : gmap nat listener) (next : nat) (st : state) : state :=
  State (mounted st) (db st) (user st) (orders st) (expenses st) (inventory st)
    (isModalOpen st) (orderForm st) (expenseForm st) (inventoryForm st)
    c ls next (outbox st) (console st).

Definition set_mounted (b : bool) (st : state) : state :=
  State b (db st) (user st) (orders st) (expenses st) (inventory st)
    (isModalOpen st) (orderForm st) (expenseForm st) (inventoryForm st)
    (cleanup st) (listeners st) (next_handle st) (outbox st) (console st).

(** The three local snapshots, as one value. *)
Definition snapshots (st : state) :=
  (orders st, expenses st, inventory st).

(** The three input forms, as one value. *)
Definition forms (st : state) :=
  (orderForm st, expenseForm st, inventoryForm st).

(** *** The subscription effect, [useEffect(..., [user])] *)

(** The returned cleanup: the three unsubscribe functions are called. *)
Definition run_cleanup (st : state) : state :=
  match cleanup st with
  | Some s =>
      set_subscriptions None
        (delete (unsubInventory s)
           (delete (unsubExpenses s)
              (delete (unsubOrders s) (listeners st))))
        (next_handle st) st
  | None => st
  end.

(** The effect body: nothing without a user or without [db]; otherwise
    three [onSnapshot] listeners, whose handles the cleanup keeps. *)
Definition run_effect (st : state) : state :=
  match user st with
  | Some _ =>
      if db st then
        let h := next_handle st in
        set_subscriptions
          (Some (Subscription h (S h) (S (S h))))
          (<[S (S h) := InventoryListener]>
             (<[S h := ExpensesListener]>
                (<[h := OrdersListener]> (listeners st))))
          (S (S (S h))) st
      else set_subscriptions None (listeners st) (next_handle st) st
  | None => set_subscriptions None (listeners st) (next_handle st) st
  end.

(** [onAuthStateChanged(auth, setUser)]: a changed user re-runs the
    effect, after the cleanup of its previous run. *)
Definition authStateChanged (u : option string) (st : state) : state :=
  if decide (u = user st) then st
  else run_effect (setUser u (run_cleanup st)).

(** Component teardown. *)
Definition unmount (st : state) : state :=
  set_mounted false (run_cleanup st).

(** A notification of the store for the listener [h]: the snapshot
    callback registered under that handle runs, if the store still
    serves it. *)
Definition onSnapshot (h : nat) (docs : list doc) (st : state) : state :=
  match listeners st !! h with
  | Some OrdersListener => setOrders (map to_record docs) st
  | Some ExpensesListener => setExpenses (map to_record docs) st
  | Some InventoryListener => setInventory (map to_record docs) st
  | None => st
  end.

(** The error callback of a listener only logs. *)
Definition onSnapshotError (h : nat) (err : string) (st : state) : state :=
  match listeners st !! h with
  | Some _ => console_error err st
  | None => st
  end.

(** *** The write helpers *)

(** [addData] up to its [await]: [collection(db, ...)] throws without
    [db], which the [catch] logs; otherwise the document is submitted. *)
Definition addData (type : string) (data : gmap string value) (now : string)
    (st : state) : state :=
  if db st then
    submit (AddDoc type (spread data {[ "createdAt" := VStr now ]})) st
  else console_error "Error add:" st.

(** [addData] after its [await]. *)
Definition addData_resume (r : outcome) (st : state) : state :=
  match r with
  | Acknowledged => setIsModalOpen None st
  | Rejected err => console_error err st
  end.

(** [updateStatus] and [deleteItem] have no code after their [await] and
    no [catch]: a rejected write or a throwing [doc(db, ...)] leaves an
    unhandled rejection and nothing else. *)
Definition updateStatus (id newStatus : value) (st : state) : state :=
  if db st then
    submit (UpdateDoc "orders" id {[ "estado" := newStatus ]}) st
  else st.

Definition deleteItem (type : string) (id : value) (st : state) : state :=
  if db st then submit (DeleteDoc type id) st else st.

(** The [-] button of an inventory card:
    [{ stock: Math.max(0, i.stock - 1) }]. *)
Definition stock_minus_fields (i : gmap string value) : gmap string value :=
  {[ "stock" := VNum (math_max [zero; sub (ToNumber (get i "stock")) one]) ]}.

Definition stockMinus (i : gmap string value) (st : state) : state :=
  if db st then
    submit (UpdateDoc "inventory" (get i "id") (stock_minus_fields i)) st
  else st.

(** The [+] button: [{ stock: i.stock + 1 }]; [+] concatenates when the
    stock is a string. *)
Definition stock_plus_fields (i : gmap string value) : gmap string value :=
  {[ "stock" :=
       match get i "stock" with
       | VStr s => VStr (s +:+ "1")
       | v => VNum (add (ToNumber v) one)
       end ]}.

Definition stockPlus (i : gmap string value) (st : state) : state :=
  if db st then
    submit (UpdateDoc "inventory" (get i "id") (stock_plus_fields i)) st
  else st.

(** *** Events and the run of the component *)

Inductive event : Type :=
  | AuthStateChanged (u : option string)
  | Unmount
  | Snapshot (h : nat) (docs : list doc)
  | SnapshotError (h : nat) (err : string)
  | AddData (type : string) (data : gmap string value) (now : string)
  | AddDataSettled (r : outcome)
  | UpdateStatus (id newStatus : value)
  | DeleteItem (type : string) (id : value)
  | StockMinus (i : gmap string value)
  | StockPlus (i : gmap string value)
  | SetIsModalOpen (m : option string).

(** Store notifications go through the listener table. User actions and
    the auth callback reach the component only while it is mounted; a
    write that settles after the teardown still logs its error, while its
    state update is dropped. *)
Definition step (e : event) (st : state) : state :=
  match e with
  | Snapshot h docs => onSnapshot h docs st
  | SnapshotError h err => onSnapshotError h err st
  | AddDataSettled r =>
      if mounted st then addData_resume r st
      else match r with
           | Rejected err => console_error err st
           | Acknowledged => st
           end
  | _ =>
      if mounted st then
        match e with
        | AuthStateChanged u => authStateChanged u st
        | Unmount => unmount st
        | AddData type data now => addData type data now st
        | UpdateStatus id newStatus => updateStatus id newStatus st
        | DeleteItem type id => deleteItem type id st
        | StockMinus i => stockMinus i st
        | StockPlus i => stockPlus i st
        | SetIsModalOpen m => setIsModalOpen m st
        | Snapshot _ _ | SnapshotError _ _ | AddDataSettled _ => st
        end
      else st
  end.

Definition run (es : list event) (st : state) : state :=
  fold_left (fun s e => step e s) es st.

(** The component as first rendered: [useState] initial values, no user
    yet, so the first run of the effect subscribed to nothing. *)
Definition initial (db_ok : bool) (today : string) : state :=
  State true db_ok None [] [] [] None
    (list_to_map [("cliente", VStr ""); ("descripcion", VStr "");
                  ("total", VNum zero); ("adelanto", VNum zero);
                  ("estado", VStr "Pendiente")])
    (list_to_map [("concepto", VStr ""); ("monto", VNum zero);
                  ("fecha", VStr today)])
    (list_to_map [("item", VStr ""); ("stock", VNum zero);
                  ("minimo", VNum (of_Z 5))])
    None ∅ 0 [] [].

(** The handles a cleanup closure unsubscribes. *)
Definition handles (s : subscription) : list nat :=
  [unsubOrders s; unsubExpenses s; unsubInventory s].

(** The events that tear the synchronizers down: the component goes away,
    or the user changes (the session is invalidated) and the effect
    cleans up before it runs again. *)
Definition teardown (e : event) (st : state) : Prop :=
  e = Unmount ∨ ∃ u, e = AuthStateChanged u ∧ u ≠ user st.

(** A handle the store has given out and no longer serves. *)
Definition detached (h : nat) (st : state) : Prop :=
  listeners st !! h = None ∧ h < next_handle st.

(** The cleanup closure belongs to a mounted component and holds
    handles the store has given out. *)
Definition cleanup_ok (st : state) : Prop :=
  ∀ s, cleanup st = Some s →
       mounted st = true ∧ ∀ h, h ∈ handles s → h < next_handle st.

(** *** Derived state *)

Record Stats : Type := MkStats {
  totalVentas : number;
  totalRecaudado : number;
  totalGastos : number;
  pedidosPendientes : nat;
  balance : number
}.

(** The [stats] memo. *)
Definition stats (orders expenses : list (gmap string value)) : Stats :=
  let totalVentas :=
    reduce (fun sum o => add sum (or_else (Number (get o "total")) zero))
      zero orders in
  let totalRecaudado :=
    reduce (fun sum o => add sum (or_else (Number (get o "adelanto")) zero))
      zero orders in
  let totalGastos :=
    reduce (fun sum e => add sum (or_else (Number (get e "monto")) zero))
      zero expenses in
  let pedidosPendientes :=
    length (List.filter
              (fun o => strict_neq (get o "estado") (VStr "Entregado"))
              orders) in
  MkStats totalVentas totalRecaudado totalGastos pedidosPendientes
    (sub totalRecaudado totalGastos).

(** "Pedidos Recientes": [orders.slice(0, 5)]. *)
Definition recentOrders (orders : list (gmap string value)) :=
  slice 0 5 orders.

(** "Stock Bajo": [inventory.filter(i => i.stock <= i.minimo)]. *)
Definition isLowStock (i : gmap string value) : bool :=
  js_le (get i "stock") (get i "minimo").

Definition lowStock (inventory : list (gmap string value)) :=
  List.filter isLowStock inventory.

(** The badge of an inventory card:
    [item.stock <= item.minimo ? 'Bajo Stock' : 'Normal']. *)
Definition stockBadge (item : gmap string value) : string :=
  if js_le (get item "stock") (get item "minimo") then "Bajo Stock"
  else "Normal".

End App.
Export App.

(** ** The view: what the inputs and buttons of [App] do *)

Module View.

Definition setOrderForm (v : gmap string value) (st : state) : state :=
  State (mounted st) (db st) (user st) (orders st) (expenses st) (inventory st)
    (isModalOpen st) v (expenseForm st) (inventoryForm st)
    (cleanup st) (listeners st) (next_handle st) (outbox st) (console st).

Definition setExpenseForm (v : gmap string value) (st : state) : state :=
  State (mounted st) (db st) (user st) (orders st) (expenses st) (inventory st)
    (isModalOpen st) (orderForm st) v (inventoryForm st)
    (cleanup st) (listeners st) (next_handle st) (outbox st) (console st).

Definition setInventoryForm (v : gmap string value) (st : state) : state :=
  State (mounted st) (db st) (user st) (orders st) (expenses st) (inventory st)
    (isModalOpen st) (orderForm st) (expenseForm st) v
    (cleanup st) (listeners st) (next_handle st) (outbox st) (console st).

(** The options of the status [select] of an order row. *)
Definition estados : list string :=
  ["Pendiente"; "En Diseño"; "En Impresión"; "Listo"; "Entregado"].

(** What can happen to the rendered component: the user types in an
    input of the open modal or presses a button, and the world calls
    back. Rows are addressed by their position in the snapshot that is
    rendered. *)
Inductive action : Type :=
  | ClickNuevo
  | ClickGasto
  | ClickStock
  | InputCliente (text : string)
  | InputTotal (text : string)
  | InputAbono (text : string)
  | InputConcepto (text : string)
  | InputMonto (text : string)
  | InputNombre (text : string)
  | InputStock (text : string)
  | ClickGuardar (now : string)
  | ClickCerrar
  | SelectEstado (row : nat) (s : string)
  | ClickBorrarPedido (row : nat)
  | ClickBorrarGasto (row : nat)
  | ClickBorrarInsumo (row : nat)
  | ClickMenos (row : nat)
  | ClickMas (row : nat)
  | Notified (h : nat) (docs : list doc)
  | ListenerFailed (h : nat) (err : string)
  | WriteSettled (r : outcome)
  | AuthChanged (u : option string)
  | Unmounted.

(** The main screen is rendered for a mounted component with a user;
    before that, [App] returns the loading screen. *)
Definition rendered (st : state) : bool :=
  mounted st && bool_decide (is_Some (user st)).

(** The modal shows the inputs of the form named by [isModalOpen]. *)
Definition modal_is (m : string) (st : state) : bool :=
  bool_decide (isModalOpen st = Some m).

(** The modal, with its "Cerrar" button, is rendered when [isModalOpen]
    is truthy. *)
Definition modal_open (st : state) : bool :=
  match isModalOpen st with
  | Some m => negb (bool_decide (m = ""))
  | None => false
  end.

(** The handlers, as written in the JSX of [App]. The three header
    buttons belong to three tabs; moving between tabs is free, so any of
    them can be reached. *)
Definition perform (a : action) (st : state) : state :=
  match a with
  | Notified h docs => step (Snapshot h docs) st
  | ListenerFailed h err => step (SnapshotError h err) st
  | WriteSettled r => step (AddDataSettled r) st
  | AuthChanged u => step (AuthStateChanged u) st
  | Unmounted => step Unmount st
  | _ =>
      if rendered st then
        match a with
        | ClickNuevo => setIsModalOpen (Some "order") st
        | ClickGasto => setIsModalOpen (Some "expense") st
        | ClickStock => setIsModalOpen (Some "inventory") st
        | InputCliente text =>
            if modal_is "order" st then
              setOrderForm
                (spread (orderForm st) {[ "cliente" := VStr text ]}) st
            else st
        | InputTotal text =>
            if modal_is "order" st then
              setOrderForm
                (spread (orderForm st)
                   {[ "total" := VNum (Number (VStr text)) ]}) st
            else st
        | InputAbono text =>
            if modal_is "order" st then
              setOrderForm
                (spread (orderForm st)
                   {[ "adelanto" := VNum (Number (VStr text)) ]}) st
            else st
        | InputConcepto text =>
            if modal_is "expense" st then
              setExpenseForm
                (spread (expenseForm st) {[ "concepto" := VStr text ]}) st
            else st
        | InputMonto text =>
            if modal_is "expense" st then
              setExpenseForm
                (spread (expenseForm st)
                   {[ "monto" := VNum (Number (VStr text)) ]}) st
            else st
        | InputNombre text =>
            if modal_is "inventory" st then
              setInventoryForm
                (spread (inventoryForm st) {[ "item" := VStr text ]}) st
            else st
        | InputStock text =>
            if modal_is "inventory" st then
              setInventoryForm
                (spread (inventoryForm st)
                   {[ "stock" := VNum (Number (VStr text)) ]}) st
            else st
        | ClickGuardar now =>
            if modal_is "order" st then addData "orders" (orderForm st) now st
            else if modal_is "expense" st then
              addData "expenses" (expenseForm st) now st
            else if modal_is "inventory" st then
              addData "inventory" (inventoryForm st) now st
            else st
        | ClickCerrar =>
            if modal_open st then setIsModalOpen None st else st
        | SelectEstado row s =>
            match orders st !! row with
            | Some o =>
                if bool_decide (s ∈ estados) then
                  updateStatus (get o "id") (VStr s) st
                else st
            | None => st
            end
        | ClickBorrarPedido row =>
            match orders st !! row with
            | Some o => deleteItem "orders" (get o "id") st
            | None => st
            end
        | ClickBorrarGasto row =>
            match expenses st !! row with
            | Some e => deleteItem "expenses" (get e "id") st
            | None => st
            end
        | ClickBorrarInsumo row =>
            match inventory st !! row with
            | Some i => deleteItem "inventory" (get i "id") st
            | None => st
            end
        | ClickMenos row =>
            match inventory st !! row with
            | Some i => stockMinus i st
            | None => st
            end
        | ClickMas row =>
            match inventory st !! row with
            | Some i => stockPlus i st
            | None => st
            end
        | Notified _ _ | ListenerFailed _ _ | WriteSettled _
        | AuthChanged _ | Unmounted => st
        end
      else st
  end.

Definition session (acts : list action) (st : state) : state :=
  fold_left (fun s a => perform a s) acts st.

(** The actions that type into an input. *)
Definition typing (a : action) : bool :=
  match a with
  | InputCliente _ | InputTotal _ | InputAbono _ | InputConcepto _
  | InputMonto _ | InputNombre _ | InputStock _ => true
  | _ => false
  end.

(** The comparison [a > b]. *)
Definition js_gt (a b : value) : bool :=
  match is_less_than b a with
  | Some true => true
  | _ => false
  end.

(** "Ingresos por Pedido" of the finance tab:
    [orders.filter(o => o.adelanto > 0).slice(0, 5)]. *)
Definition ingresosPorPedido (orders : list (gmap string value)) :=
  slice 0 5
    (List.filter (fun o => js_gt (get o "adelanto") (VNum zero)) orders).

(** "Saldo" of an order row: [order.total - order.adelanto]. *)
Definition saldo (order : gmap string value) : number :=
  sub (ToNumber (get order "total")) (ToNumber (get order "adelanto")).

End View.
Export View.

(** ** The life of the component *)

Module Session.

(** One thing that happens to the component: an event of [step], or
    something done at the screen, typing into an input included. *)
Inductive move : Type :=
  | Happens (e : event)
  | Does (a : action).

Definition advance (m : move) (st : state) : state :=
  match m with
  | Happens e => step e st
  | Does a => perform a st
  end.

Definition play (ms : list move) (st : state) : state :=
  fold_left (fun s m => advance m s) ms st.

(** The states the component can be in: what any sequence of moves
    reaches from the first render. *)
Definition reachable (st : state) : Prop :=
  ∃ (db_ok : bool) (today : string) (ms : list move),
    st = play ms (initial db_ok today).

End Session.
Export Session.

(** ** Predicates used in the statements *)

Module Props.

Definition is_number (o : option value) : Prop := ∃ n, o = Some (VNum n).

Definition is_text (o : option value) : Prop := ∃ s, o = Some (VStr s).

(** The shape of a document the modals create. [today] is the date the
    expense form was given at the first render. *)
Definition created_ok (today col : string) (f : gmap string value) : Prop :=
  is_text (f !! "createdAt")
  ∧ ((col = "orders"
      ∧ f !! "estado" = Some (VStr "Pendiente")
      ∧ f !! "descripcion" = Some (VStr "")
      ∧ is_text (f !! "cliente")
      ∧ is_number (f !! "total")
      ∧ is_number (f !! "adelanto"))
     ∨ (col = "expenses"
        ∧ is_text (f !! "concepto")
        ∧ is_number (f !! "monto")
        ∧ f !! "fecha" = Some (VStr today))
     ∨ (col = "inventory"
        ∧ is_text (f !! "item")
        ∧ is_number (f !! "stock")
        ∧ f !! "minimo" = Some (VNum (of_Z 5)))).

Definition write_ok (today : string) (w : write) : Prop :=
  match w with
  | AddDoc col f => created_ok today col f
  | UpdateDoc col id f =>
      (col = "orders" ∧ ∃ s, s ∈ estados ∧ f = {[ "estado" := VStr s ]})
      ∨ (col = "inventory" ∧ ∃ v, f = {[ "stock" := v ]})
  | DeleteDoc col id => col ∈ ["orders"; "expenses"; "inventory"]
  end.

(** The forms hold what [write_ok] asks of the documents made from them. *)
Definition forms_ok (today : string) (st : state) : Prop :=
  (orderForm st !! "estado" = Some (VStr "Pendiente")
   ∧ orderForm st !! "descripcion" = Some (VStr "")
   ∧ is_text (orderForm st !! "cliente")
   ∧ is_number (orderForm st !! "total")
   ∧ is_number (orderForm st !! "adelanto"))
  ∧ (is_text (expenseForm st !! "concepto")
     ∧ is_number (expenseForm st !! "monto")
     ∧ expenseForm st !! "fecha" = Some (VStr today))
  ∧ (is_text (inventoryForm st !! "item")
     ∧ is_number (inventoryForm st !! "stock")
     ∧ inventoryForm st !! "minimo" = Some (VNum (of_Z 5))).

(** The listeners the store serves for a cleanup closure. *)
Definition listeners_of (c : option subscription) : gmap nat listener :=
  match c with
  | Some s =>
      <[unsubInventory s := InventoryListener]>
        (<[unsubExpenses s := ExpensesListener]>
           (<[unsubOrders s := OrdersListener]> ∅))
  | None => ∅
  end.

(** The subscription effect keeps the store's listeners and its own
    cleanup closure in step, and subscribes exactly for a mounted
    component with a user and a store handle. *)
Definition subscriptions_ok (st : state) : Prop :=
  listeners st = listeners_of (cleanup st)
  ∧ (∀ s, cleanup st = Some s →
          unsubExpenses s = S (unsubOrders s)
          ∧ unsubInventory s = S (S (unsubOrders s)))
  ∧ (is_Some (cleanup st)
     ↔ mounted st = true ∧ is_Some (user st) ∧ db st = true).

(** Two states with the same session and the same subscriptions. *)
Definition same_subscriptions (a b : state) : Prop :=
  mounted a = mounted b ∧ db a = db b ∧ user a = user b
  ∧ cleanup a = cleanup b ∧ listeners a = listeners b
  ∧ next_handle a = next_handle b.

(** Two states that differ at most in what the console shows. *)
Definition same_but_console (a b : state) : Prop :=
  mounted a = mounted b ∧ db a = db b ∧ user a = user b
  ∧ snapshots a = snapshots b ∧ isModalOpen a = isModalOpen b
  ∧ forms a = forms b ∧ cleanup a = cleanup b
  ∧ listeners a = listeners b ∧ next_handle a = next_handle b
  ∧ outbox a = outbox b.

(** No record of the list has a negative amount in [field]: the
    comparison [amount < 0] is never true. *)
Definition no_negative (field : string) (l : list (gmap string value)) : Prop :=
  ∀ o, o ∈ l → lessThan (Number (get o field)) zero ≠ Some true.

(** An inventory record once the store has merged the submitted fields
    into it. *)
Definition merged (i fields : gmap string value) : gmap string value :=
  spread i fields.

End Props.
Export Props.

(** ** The metrics, in the words of the specification *)

Module Spec.

(** What a record contributes to the sum over [field]: the numeric value
    of the field, and 0 when the field is missing or is not a number
    after coercion. *)
Definition contribution (field : string) (o : gmap string value) : number :=
  match o !! field with
  | None => zero
  | Some v => if is_nan (Number v) then zero else Number v
  end.

(** The sum of a sequence of numbers, taken in order from 0. *)
Definition sum (xs : list number) : number := fold_left add xs zero.

Definition sum_field (field : string) (l : list (gmap string value)) : number :=
  sum (map (contribution field) l).

(** The number of orders whose status is not "Entregado". *)
Definition activeOrderCount (orders : list (gmap string value)) : nat :=
  length (List.filter
            (fun o => bool_decide (get o "estado" ≠ VStr "Entregado")) orders).

(** A document tagged with the id the store assigned to it. *)
Definition tagged (d : doc) : gmap string value :=
  <[ "id" := VStr (doc_id d) ]> (doc_data d).

End Spec.

(** ** Facts about numbers *)

Lemma Fin_ext (a b : Qc) : Qeq_bool a b = true → Fin a = Fin b.
Proof.
  intros H. f_equal. apply Qc_is_canon. by apply Qeq_bool_iff.
Qed.

(** Closed equations between numbers. *)
Ltac num_eq :=
  vm_compute;
  repeat match goal with
         | |- _ ∧ _ => split
         | |- Fin _ = Fin _ => apply Fin_ext; vm_compute; reflexivity
         | |- VNum (Fin _) = VNum (Fin _) =>
             f_equal; apply Fin_ext; vm_compute; reflexivity
         | |- _ => reflexivity
         end.

Lemma Qc_of_Z_0 : Qc_of_Z 0 = 0%Qc.
Proof. apply Z2Qc_inj_0. Qed.

Lemma add_zero_r (x : number) : x ≠ NegZero → add x zero = x.
Proof.
  destruct x; simpl; try congruence.
  intros _. unfold zero. by rewrite Qc_of_Z_0, Qcplus_0_r.
Qed.

Lemma add_negzero_r (x : number) : add x NegZero = x.
Proof. by destruct x. Qed.

(** Only two negative zeros add up to the negative zero. *)
Lemma add_not_negzero (x y : number) : x ≠ NegZero → add x y ≠ NegZero.
Proof. destruct x, y; simpl; congruence. Qed.

Lemma zero_not_negzero : zero ≠ NegZero.
Proof. discriminate. Qed.

Lemma or_else_zero (n : number) :
  or_else n zero = (if is_nan n then zero else n)
  ∨ (n = NegZero ∧ or_else n zero = zero).
Proof.
  destruct n; simpl; auto.
  left. unfold or_else, to_boolean. case_bool_decide; simpl; [|done].
  by subst.
Qed.

(** With an accumulator that is not -0, the code's term and the
    specification's contribution add the same. *)
Lemma add_contribution (field : string) (o : gmap string value) (acc : number) :
  acc ≠ NegZero →
  add acc (or_else (Number (get o field)) zero)
  = add acc (Spec.contribution field o).
Proof.
  intros Hacc. unfold Spec.contribution, get.
  destruct (o !! field) as [v|]; simpl; [|done].
  destruct (or_else_zero (Number v)) as [->|[Hz ->]]; [done|].
  rewrite Hz. simpl. by rewrite add_zero_r, add_negzero_r.
Qed.

Lemma reduce_sum (field : string) (l : list (gmap string value)) (acc : number) :
  acc ≠ NegZero →
  reduce (fun sum o => add sum (or_else (Number (get o field)) zero)) acc l
  = fold_left add (map (Spec.contribution field) l) acc.
Proof.
  unfold reduce. revert acc.
  induction l as [|o l IH]; intros acc Hacc; simpl; [done|].
  rewrite add_contribution by done.
  apply IH. by apply add_not_negzero.
Qed.

(** A record whose field is missing or does not coerce to a number can be
    dropped from any position without changing the sum. *)
Lemma zero_contribution_skipped (field : string)
    (l1 l2 : list (gmap string value)) (o : gmap string value) :
  (o !! field = None ∨ ∃ v, o !! field = Some v ∧ Number v = NaN) →
  Spec.sum_field field (l1 ++ o :: l2) = Spec.sum_field field (l1 ++ l2).
Proof.
  intros Ho. unfold Spec.sum_field, Spec.sum.
  assert (Spec.contribution field o = zero) as Hz.
  { unfold Spec.contribution. destruct Ho as [->|(v & -> & ->)]; done. }
  rewrite !map_app, !fold_left_app. simpl. rewrite Hz.
  f_equal. apply add_zero_r.
  generalize (map (Spec.contribution field) l1) as xs.
  intros xs. assert (∀ acc, acc ≠ NegZero → fold_left add xs acc ≠ NegZero) as H.
  { induction xs as [|x xs IH]; simpl; [done|].
    intros acc Hacc. by apply IH, add_not_negzero. }
  apply H, zero_not_negzero.
Qed.

(** ** The metrics aggregator *)

Lemma stats_fields (orders expenses : list (gmap string value)) :
  totalVentas (stats orders expenses) = Spec.sum_field "total" orders
  ∧ totalRecaudado (stats orders expenses) = Spec.sum_field "adelanto" orders
  ∧ totalGastos (stats orders expenses) = Spec.sum_field "monto" expenses.
Proof.
  unfold stats, Spec.sum_field, Spec.sum; simpl.
  rewrite !reduce_sum by apply zero_not_negzero.
  by repeat split.
Qed.

(** C1: for every orders and expenses snapshot, totalVentas,
    totalRecaudado and totalGastos are the sums, over all orders
    (expenses), of the numeric value of the field total, adelanto
    (monto), where a record whose field is missing or does not coerce to
    a number contributes 0; on empty collections the three sums are 0. *)
Theorem stats_sums (orders expenses : list (gmap string value)) :
  totalVentas (stats orders expenses) = Spec.sum_field "total" orders
  ∧ totalRecaudado (stats orders expenses) = Spec.sum_field "adelanto" orders
  ∧ totalGastos (stats orders expenses) = Spec.sum_field "monto" expenses
  ∧ totalVentas (stats [] []) = zero
  ∧ totalRecaudado (stats [] []) = zero
  ∧ totalGastos (stats [] []) = zero.
Proof.
  destruct (stats_fields orders expenses) as (Hv & Hr & Hg).
  by repeat split.
Qed.

(** X2: an order whose total is missing, or does not coerce to a number,
    can be taken out of the snapshot without changing totalVentas; the
    same holds for adelanto and totalRecaudado. *)
Lemma stats_zero_fallback (l1 l2 expenses : list (gmap string value))
    (o : gmap string value) :
  ((o !! "total" = None ∨ ∃ v, o !! "total" = Some v ∧ Number v = NaN) →
   totalVentas (stats (l1 ++ o :: l2) expenses)
   = totalVentas (stats (l1 ++ l2) expenses))
  ∧ ((o !! "adelanto" = None
      ∨ ∃ v, o !! "adelanto" = Some v ∧ Number v = NaN) →
     totalRecaudado (stats (l1 ++ o :: l2) expenses)
     = totalRecaudado (stats (l1 ++ l2) expenses)).
Proof.
  destruct (stats_fields (l1 ++ o :: l2) expenses) as (-> & -> & _).
  destruct (stats_fields (l1 ++ l2) expenses) as (-> & -> & _).
  split; apply zero_contribution_skipped.
Qed.

Lemma stats_zero_fallback_witness :
  totalVentas
    (stats ([ {[ "total" := VNum (of_Z 10) ]} ]
            ++ {[ "total" := VStr "diez" ]}
            :: [ {[ "total" := VNum (of_Z 5) ]} ]) [])
  = totalVentas
      (stats ([ {[ "total" := VNum (of_Z 10) ]} ]
              ++ [ {[ "total" := VNum (of_Z 5) ]} ]) []).
Proof.
  apply (proj1 (stats_zero_fallback
                  [ {[ "total" := VNum (of_Z 10) ]} ]
                  [ {[ "total" := VNum (of_Z 5) ]} ] []
                  {[ "total" := VStr "diez" ]})).
  right. exists (VStr "diez"). split; reflexivity.
Defined.

Lemma strict_neq_spec (v : value) (s : string) :
  strict_neq v (VStr s) = bool_decide (v ≠ VStr s).
Proof.
  unfold strict_neq.
  destruct v; simpl; try done.
  repeat case_bool_decide; simpl; congruence.
Qed.

Lemma pedidosPendientes_unfold (orders expenses : list (gmap string value)) :
  pedidosPendientes (stats orders expenses)
  = length (List.filter
              (fun o => strict_neq (get o "estado") (VStr "Entregado")) orders).
Proof. reflexivity. Qed.

(** Replacing one element that fails a test by one that passes it adds
    one to the length of the filtered list. *)
Lemma filter_length_insert {A : Type} (f : A → bool) (l : list A) (i : nat)
    (x y : A) :
  l !! i = Some x → f x = false → f y = true →
  length (List.filter f (<[i := y]> l)) = S (length (List.filter f l)).
Proof.
  revert i. induction l as [|a l IH]; intros [|i] Hi Hx Hy; simpl in *;
    try discriminate.
  - injection Hi as ->. by rewrite Hx, Hy.
  - destruct (f a); simpl; by rewrite (IH i).
Qed.

(** C2: pedidosPendientes is the number of orders whose estado is not
    "Entregado"; and when one order of the snapshot is "Entregado",
    giving that order any other estado, the other orders unchanged,
    raises pedidosPendientes by exactly one. *)
Theorem pedidosPendientes_count (orders expenses : list (gmap string value)) :
  pedidosPendientes (stats orders expenses) = Spec.activeOrderCount orders
  ∧ ∀ (i : nat) (o : gmap string value) (v : value),
      orders !! i = Some o →
      get o "estado" = VStr "Entregado" →
      v ≠ VStr "Entregado" →
      pedidosPendientes
        (stats (<[i := <["estado" := v]> o]> orders) expenses)
      = S (pedidosPendientes (stats orders expenses)).
Proof.
  split.
  - rewrite pedidosPendientes_unfold. unfold Spec.activeOrderCount.
    f_equal. apply filter_ext. intros o. apply strict_neq_spec.
  - intros i o v Hi Ho Hv. rewrite !pedidosPendientes_unfold.
    apply filter_length_insert with (x := o); [done| |].
    + rewrite strict_neq_spec, Ho. by apply bool_decide_eq_false_2; intros [].
    + rewrite strict_neq_spec. apply bool_decide_eq_true_2.
      unfold get. by rewrite lookup_insert_eq.
Qed.

Lemma pedidosPendientes_count_witness :
  pedidosPendientes
    (stats (<[1%nat := <["estado" := VStr "Listo"]>
                         {[ "estado" := VStr "Entregado" ]}]>
              [ {[ "estado" := VStr "Pendiente" ]};
                {[ "estado" := VStr "Entregado" ]} ]) [])
  = S (pedidosPendientes
         (stats [ {[ "estado" := VStr "Pendiente" ]};
                  {[ "estado" := VStr "Entregado" ]} ] [])).
Proof.
  apply (proj2 (pedidosPendientes_count
                  [ {[ "estado" := VStr "Pendiente" ]};
                    {[ "estado" := VStr "Entregado" ]} ] []));
    [reflexivity | reflexivity | discriminate].
Defined.

(** C3: the balance of the metrics is totalRecaudado minus totalGastos,
    both as computed from the same snapshots; on two empty collections
    it is 0. *)
Theorem balance_identity (orders expenses : list (gmap string value)) :
  balance (stats orders expenses)
  = sub (totalRecaudado (stats orders expenses))
        (totalGastos (stats orders expenses))
  ∧ balance (stats orders expenses)
    = sub (Spec.sum_field "adelanto" orders) (Spec.sum_field "monto" expenses)
  ∧ balance (stats [] []) = zero.
Proof.
  destruct (stats_fields orders expenses) as (_ & Hr & Hg).
  split; [reflexivity|]. split; [|num_eq].
  by rewrite <- Hr, <- Hg.
Qed.

(** The scenario of the specification: two orders and one expense. *)
Example stats_scenario :
  let orders :=
    [ list_to_map [("total", VNum (of_Z 1000)); ("adelanto", VNum (of_Z 200));
                   ("estado", VStr "Pendiente")];
      list_to_map [("total", VNum (of_Z 500)); ("adelanto", VNum (of_Z 500));
                   ("estado", VStr "Entregado")] ] in
  let expenses := [ {[ "monto" := VNum (of_Z 300) ]} ] in
  totalVentas (stats orders expenses) = of_Z 1500
  ∧ totalRecaudado (stats orders expenses) = of_Z 700
  ∧ totalGastos (stats orders expenses) = of_Z 300
  ∧ pedidosPendientes (stats orders expenses) = 1%nat
  ∧ balance (stats orders expenses) = of_Z 400.
Proof. num_eq. Qed.

(** Amounts kept as the text of an input box, a missing amount and an
    amount that is not a number. *)
Example stats_text_amounts :
  let orders :=
    [ {[ "total" := VStr "12.50" ]};
      {[ "total" := VStr "n/a" ]};
      {[ "cliente" := VStr "Colegio" ]};
      {[ "total" := VStr " 7.5 " ]} ] in
  totalVentas (stats orders []) = of_Z 20.
Proof. num_eq. Qed.

(** ** The collection synchronizers *)

Lemma to_record_lookup_id (d : doc) :
  to_record d !! "id"
  = Some (default (VStr (doc_id d)) (doc_data d !! "id")).
Proof.
  unfold to_record, spread. rewrite lookup_union.
  destruct (doc_data d !! "id") as [v|] eqn:E; simpl.
  - by rewrite lookup_singleton_eq.
  - by rewrite lookup_singleton_eq.
Qed.

Lemma to_record_lookup_field (d : doc) (k : string) :
  k ≠ "id" → to_record d !! k = doc_data d !! k.
Proof.
  intros Hk. unfold to_record, spread. rewrite lookup_union.
  rewrite lookup_singleton_ne by done. by destruct (doc_data d !! k).
Qed.

(** A document whose data has no field named id of its own becomes the
    record tagged with the document id. *)
Lemma to_record_tagged (d : doc) :
  doc_data d !! "id" = None → to_record d = Spec.tagged d.
Proof.
  intros Hd. unfold to_record, spread, Spec.tagged.
  rewrite insert_union_singleton_l. apply map_eq. intros k.
  rewrite !lookup_union. destruct (decide (k = "id")) as [->|Hk].
  - rewrite Hd, lookup_singleton_eq. done.
  - rewrite lookup_singleton_ne by done. by destruct (doc_data d !! k).
Qed.

(** A notification replaces the snapshot of its collection by the
    records built from the delivered documents, in their order, whatever
    the snapshot was before; the other two snapshots stay, and a handle
    the store does not serve changes nothing. *)
Lemma onSnapshot_replaces (h : nat) (S : list doc) (st : state) :
  match listeners st !! h with
  | Some OrdersListener =>
      snapshots (onSnapshot h S st)
      = (map to_record S, expenses st, inventory st)
  | Some ExpensesListener =>
      snapshots (onSnapshot h S st)
      = (orders st, map to_record S, inventory st)
  | Some InventoryListener =>
      snapshots (onSnapshot h S st)
      = (orders st, expenses st, map to_record S)
  | None => onSnapshot h S st = st
  end.
Proof.
  unfold onSnapshot. by destruct (listeners st !! h) as [[]|].
Qed.

(** The state of a signed-in session: three listeners, handles 0, 1, 2. *)
Lemma signed_in_listeners (today : string) (uid : string) :
  let st := run [AuthStateChanged (Some uid)] (initial true today) in
  listeners st !! 0%nat = Some OrdersListener
  ∧ listeners st !! 1%nat = Some ExpensesListener
  ∧ listeners st !! 2%nat = Some InventoryListener
  ∧ cleanup st = Some (Subscription 0 1 2).
Proof. by vm_compute. Qed.

(** C4, at a document whose data carries a field named id: the record
    exposed after the notification bears the id of the data, not the id
    the store assigned to the document. *)
Theorem onSnapshot_id_overridden :
  let d := Doc "abc" (list_to_map [("id", VStr "zzz"); ("cliente", VStr "Ana")]) in
  let st := run [AuthStateChanged (Some "u1")] (initial true "2024-05-01") in
  listeners st !! 0%nat = Some OrdersListener
  ∧ orders (step (Snapshot 0 [d]) st) = [doc_data d]
  ∧ get (to_record d) "id" = VStr "zzz"
  ∧ orders (step (Snapshot 0 [d]) st) ≠ map Spec.tagged [d].
Proof.
  intros d st. split; [|split; [|split]].
  - vm_compute. reflexivity.
  - vm_compute. reflexivity.
  - vm_compute. reflexivity.
  - intros H.
    apply (f_equal (fun l => (default ∅ (head l)) !! "id")) in H.
    vm_compute in H. discriminate.
Qed.

(** ** The dashboard selections *)

Lemma slice_prefix {A : Type} (n : nat) (l : list A) :
  slice 0 (Z.of_nat n) l = take n l.
Proof.
  unfold slice.
  replace (0 <? 0)%Z with false by done.
  replace (Z.of_nat n <? 0)%Z with false by (symmetry; apply Z.ltb_ge; lia).
  replace (Z.min 0 (Z.of_nat (length l))) with 0%Z by lia.
  rewrite Z.sub_0_r. change (Z.to_nat 0) with 0%nat. rewrite drop_0.
  destruct (decide (n ≤ length l)).
  - rewrite Z.min_l, Z.max_l by lia. by rewrite Nat2Z.id.
  - rewrite Z.min_r, Z.max_l by lia. rewrite Nat2Z.id.
    by rewrite !take_ge by lia.
Qed.

(** C5: the recent-orders view is the first five entries of the orders
    snapshot, in the order of the snapshot; nothing is sorted before the
    truncation. *)
Theorem recentOrders_prefix (orders : list (gmap string value)) :
  recentOrders orders = take 5 orders
  ∧ length (recentOrders orders) = Nat.min 5 (length orders)
  ∧ ∀ i : nat, (i < 5)%nat → recentOrders orders !! i = orders !! i.
Proof.
  assert (recentOrders orders = take 5 orders) as E
    by apply (slice_prefix 5).
  rewrite E. split; [done|]. split; [apply length_take|].
  intros i Hi. by apply lookup_take_lt.
Qed.

Lemma recentOrders_prefix_witness :
  recentOrders [ {[ "cliente" := VStr "b" ]}; {[ "cliente" := VStr "a" ]} ]
    !! 1%nat
  = [ {[ "cliente" := VStr "b" ]}; {[ "cliente" := VStr "a" ]} ] !! 1%nat.
Proof.
  apply (proj2 (proj2 (recentOrders_prefix
                         [ {[ "cliente" := VStr "b" ]};
                           {[ "cliente" := VStr "a" ]} ]))).
  lia.
Defined.

(** ** The write helpers *)

Lemma sub_one_of_Z (s : Z) : sub (of_Z s) one = of_Z (s - 1).
Proof.
  unfold sub, one, of_Z, neg.
  destruct (decide (Qc_of_Z 1 = Qc_of_Z 0)) as [E|_].
  - by apply Z2Qc_inj in E.
  - simpl. f_equal. by rewrite Z2Qc_inj_sub.
Qed.

(** [Math.max(0, s - 1)] on a whole number [s] that is not negative. *)
Lemma math_max_floor (s : Z) :
  (0 ≤ s)%Z → math_max [zero; sub (of_Z s) one] = of_Z (Z.max 0 (s - 1)).
Proof.
  intros Hs. rewrite sub_one_of_Z.
  unfold math_max, zero, of_Z. simpl.
  case_bool_decide as Hlt.
  - apply Z2Qc_inj_lt in Hlt. by rewrite Z.max_r by lia.
  - rewrite <- Z2Qc_inj_lt in Hlt. by rewrite Z.max_l by lia.
Qed.

Lemma stock_minus_fields_whole (i : gmap string value) (s : Z) :
  (0 ≤ s)%Z →
  get i "stock" = VNum (of_Z s) →
  stock_minus_fields i = {[ "stock" := VNum (of_Z (Z.max 0 (s - 1))) ]}.
Proof.
  intros Hs Hi. unfold stock_minus_fields. rewrite Hi.
  change (ToNumber (VNum (of_Z s))) with (of_Z s).
  by rewrite math_max_floor.
Qed.



(** The scenario of the specification: stock 3 goes to 2, and pressing
    the button three more times stops at 0. *)
Example stockMinus_scenario :
  stock_minus_fields {[ "stock" := VNum (of_Z 3) ]}
  = {[ "stock" := VNum (of_Z 2) ]}
  ∧ stock_minus_fields {[ "stock" := VNum (of_Z 1) ]}
    = {[ "stock" := VNum (of_Z 0) ]}
  ∧ stock_minus_fields {[ "stock" := VNum (of_Z 0) ]}
    = {[ "stock" := VNum (of_Z 0) ]}.
Proof.
  split; [|split].
  - by rewrite (stock_minus_fields_whole _ 3).
  - by rewrite (stock_minus_fields_whole _ 1).
  - by rewrite (stock_minus_fields_whole _ 0).
Qed.

Lemma spread_createdAt (data : gmap string value) (now : string) :
  spread data {[ "createdAt" := VStr now ]}
  = <[ "createdAt" := VStr now ]> data.
Proof. unfold spread. by rewrite insert_union_singleton_l. Qed.

(** C7: [addData] submits the given record extended with the field
    createdAt; when the write is acknowledged the open modal is cleared;
    when it is rejected the error is logged and nothing else happens: the
    modal stays as it is, and so do the snapshots and the forms. *)
Theorem addData_contract (type : string) (data : gmap string value)
    (now err : string) (st : state) :
  (outbox (addData type data now st)
   = (if db st then
        outbox st ++ [AddDoc type (<[ "createdAt" := VStr now ]> data)]
      else outbox st)
   ∧ isModalOpen (addData type data now st) = isModalOpen st
   ∧ snapshots (addData type data now st) = snapshots st
   ∧ forms (addData type data now st) = forms st)
  ∧ (isModalOpen (addData_resume Acknowledged st) = None
     ∧ console (addData_resume Acknowledged st) = console st
     ∧ snapshots (addData_resume Acknowledged st) = snapshots st
     ∧ forms (addData_resume Acknowledged st) = forms st)
  ∧ (console (addData_resume (Rejected err) st) = console st ++ [err]
     ∧ isModalOpen (addData_resume (Rejected err) st) = isModalOpen st
     ∧ snapshots (addData_resume (Rejected err) st) = snapshots st
     ∧ forms (addData_resume (Rejected err) st) = forms st
     ∧ outbox (addData_resume (Rejected err) st) = outbox st).
Proof.
  split; [|split]; [|done..].
  unfold addData. rewrite spread_createdAt. by destruct (db st).
Qed.

(** The created document keeps every field of the record, and its
    createdAt is the time of the call even when the record had one. *)
Lemma addData_document (data : gmap string value) (now : string) (k : string) :
  (<[ "createdAt" := VStr now ]> data) !! k
  = if decide (k = "createdAt") then Some (VStr now) else data !! k.
Proof.
  case_decide as Hk.
  - subst. apply lookup_insert_eq.
  - by apply lookup_insert_ne.
Qed.

(** C8: none of the write operations touches the local snapshots, whether
    the store acknowledges or rejects the write; the only event of the
    component that changes a snapshot is a notification of the store. *)
Theorem writes_keep_snapshots (st : state) :
  (∀ type data now, snapshots (addData type data now st) = snapshots st)
  ∧ (∀ r, snapshots (addData_resume r st) = snapshots st)
  ∧ (∀ id newStatus, snapshots (updateStatus id newStatus st) = snapshots st)
  ∧ (∀ type id, snapshots (deleteItem type id st) = snapshots st)
  ∧ (∀ i, snapshots (stockMinus i st) = snapshots st)
  ∧ (∀ i, snapshots (stockPlus i st) = snapshots st)
  ∧ (∀ e, match e with
          | Snapshot _ _ => True
          | _ => snapshots (step e st) = snapshots st
          end).
Proof.
  repeat apply conj.
  - intros. unfold addData. by destruct (db st).
  - by intros [].
  - intros. unfold updateStatus. by destruct (db st).
  - intros. unfold deleteItem. by destruct (db st).
  - intros. unfold stockMinus. by destruct (db st).
  - intros. unfold stockPlus. by destruct (db st).
  - intros e. unfold step, onSnapshotError, authStateChanged, unmount,
      run_effect, run_cleanup, addData, addData_resume, updateStatus,
      deleteItem, stockMinus, stockPlus.
    destruct e; try done; repeat case_match; done.
Qed.

(** ** Low stock *)

Lemma string_lt_irrefl (s : list ascii) : string_lt s s = false.
Proof.
  unfold string_lt. induction (code_units s) as [|c l IH]; simpl; [done|].
  by rewrite decide_True.
Qed.

Lemma lessThan_irrefl (n : number) : n ≠ NaN → lessThan n n = Some false.
Proof.
  destruct n; simpl; try done. intros _. f_equal.
  apply bool_decide_eq_false_2, irreflexivity, _.
Qed.

(** Two values that are strictly equal, and are not undefined, compare
    as [<=]. *)
Lemma strict_eq_js_le (a b : value) :
  a ≠ VUndefined → strict_eq a b = true → js_le a b = true.
Proof.
  intros Ha Hab. unfold js_le, is_less_than.
  destruct a as [| |x|x|x], b as [| |y|y|y]; simpl in Hab; try done.
  - apply bool_decide_eq_true_1 in Hab as ->. simpl.
    rewrite lessThan_irrefl; [done|]. by destruct y.
  - simpl. destruct x, y; simpl in *; try done.
    + apply bool_decide_eq_true_1 in Hab as ->.
      by rewrite bool_decide_eq_false_2 by apply irreflexivity, _.
    + apply bool_decide_eq_true_1 in Hab as ->.
      by rewrite bool_decide_eq_false_2 by apply irreflexivity, _.
    + apply bool_decide_eq_true_1 in Hab. injection Hab as ->.
      by rewrite bool_decide_eq_false_2 by apply irreflexivity, _.
  - apply bool_decide_eq_true_1 in Hab as ->.
    by rewrite string_lt_irrefl.
Qed.

Lemma js_le_finite (a b : Qc) :
  js_le (VNum (Fin a)) (VNum (Fin b)) = true ↔ (a ≤ b)%Qc.
Proof.
  unfold js_le, is_less_than. simpl. rewrite Qcle_ngt.
  case_bool_decide; split; intros; done.
Qed.

Lemma filter_sublist {A : Type} (f : A → bool) (l : list A) :
  sublist (List.filter f l) l.
Proof.
  induction l as [|x l IH]; simpl; [constructor|].
  destruct (f x); by constructor.
Qed.

Lemma lowStock_elem (i : gmap string value)
    (inventory : list (gmap string value)) :
  i ∈ lowStock inventory
  ↔ i ∈ inventory ∧ js_le (get i "stock") (get i "minimo") = true.
Proof.
  unfold lowStock, isLowStock. rewrite !list_elem_of_In. apply filter_In.
Qed.

(** C10: low stock is the comparison [stock <= minimo], not a strict one.
    The low-stock list holds, in the order of the inventory, exactly the
    items for which the comparison is true. For numeric fields an item
    is low, and in the list, exactly when its stock is at most its
    minimo: it is left out as soon as the stock is above. An item whose
    stock equals its minimo is in the list and carries the badge
    "Bajo Stock". *)
Theorem lowStock_at_threshold (i : gmap string value)
    (inventory : list (gmap string value)) :
  (∀ a b : Qc,
     get i "stock" = VNum (Fin a) →
     get i "minimo" = VNum (Fin b) →
     (isLowStock i = true ↔ (a ≤ b)%Qc)
     ∧ stockBadge i = (if bool_decide (a ≤ b)%Qc then "Bajo Stock" else "Normal")
     ∧ (i ∈ lowStock inventory ↔ i ∈ inventory ∧ (a ≤ b)%Qc))
  ∧ (get i "stock" ≠ VUndefined →
     strict_eq (get i "stock") (get i "minimo") = true →
     isLowStock i = true
     ∧ stockBadge i = "Bajo Stock"
     ∧ (i ∈ lowStock inventory ↔ i ∈ inventory))
  ∧ (i ∈ lowStock inventory
     ↔ i ∈ inventory ∧ js_le (get i "stock") (get i "minimo") = true)
  ∧ sublist (lowStock inventory) inventory.
Proof.
  split; [|split; [|split]].
  - intros a b Ha Hb. unfold isLowStock, stockBadge.
    rewrite lowStock_elem, Ha, Hb.
    split; [apply js_le_finite|]. split.
    + case_bool_decide as Hle.
      * apply js_le_finite in Hle. by rewrite Hle.
      * destruct (js_le _ _) eqn:E; [|done].
        by apply js_le_finite in E.
    + by rewrite js_le_finite.
  - intros Hs Heq. pose proof (strict_eq_js_le _ _ Hs Heq) as Hle.
    unfold isLowStock, stockBadge. rewrite lowStock_elem, Hle.
    split; [done|]. split; [done|]. naive_solver.
  - apply lowStock_elem.
  - apply filter_sublist.
Qed.

Lemma lowStock_at_threshold_witness :
  let at_minimo : gmap string value :=
    list_to_map [("item", VStr "papel"); ("stock", VNum (of_Z 5));
                 ("minimo", VNum (of_Z 5))] in
  let above : gmap string value :=
    list_to_map [("item", VStr "tinta"); ("stock", VNum (of_Z 6));
                 ("minimo", VNum (of_Z 5))] in
  at_minimo ∈ lowStock [above; at_minimo]
  ∧ above ∉ lowStock [above; at_minimo].
Proof.
  intros at_minimo above. split.
  - apply (proj1 (proj2 (lowStock_at_threshold at_minimo [above; at_minimo])));
      [discriminate | reflexivity |].
    apply list_elem_of_further, list_elem_of_here.
  - intros Hin.
    apply (proj1 (lowStock_at_threshold above [above; at_minimo])
             (Qc_of_Z 6) (Qc_of_Z 5) eq_refl eq_refl) in Hin.
    destruct Hin as [_ Hle].
    apply (proj2 (Z2Qc_inj_le 6 5)) in Hle. lia.
Defined.

(** The scenario of the specification. *)
Example lowStock_scenario :
  stockBadge (list_to_map [("stock", VNum (of_Z 3)); ("minimo", VNum (of_Z 5))])
  = "Bajo Stock"
  ∧ stockBadge (list_to_map [("stock", VNum (of_Z 10)); ("minimo", VNum (of_Z 5))])
    = "Normal"
  ∧ lowStock
      [ list_to_map [("item", VStr "papel"); ("stock", VNum (of_Z 3));
                     ("minimo", VNum (of_Z 5))];
        list_to_map [("item", VStr "tinta"); ("stock", VNum (of_Z 10));
                     ("minimo", VNum (of_Z 5))] ]
    = [ list_to_map [("item", VStr "papel"); ("stock", VNum (of_Z 3));
                     ("minimo", VNum (of_Z 5))] ].
Proof. split; [|split]; vm_compute; reflexivity. Qed.

(** ** Teardown of the synchronizers *)

Lemma cleanup_ok_initial (db_ok : bool) (today : string) :
  cleanup_ok (initial db_ok today).
Proof. intros s Hs. discriminate. Qed.

Lemma run_cleanup_frame (st : state) :
  mounted (run_cleanup st) = mounted st
  ∧ next_handle (run_cleanup st) = next_handle st
  ∧ cleanup (run_cleanup st) = None.
Proof. unfold run_cleanup. by destruct (cleanup st) eqn:E. Qed.

Lemma cleanup_ok_step (e : event) (st : state) :
  cleanup_ok st → cleanup_ok (step e st).
Proof.
  intros Hok.
  assert (∀ st', mounted st' = mounted st → cleanup st' = cleanup st →
                 next_handle st' = next_handle st → cleanup_ok st') as Hsame.
  { intros st' Hm Hc Hn s Hs. rewrite Hm, Hn. apply Hok. by rewrite <- Hc. }
  destruct (run_cleanup_frame st) as (Hcm & Hcn & Hcc).
  destruct e; simpl; unfold onSnapshot, onSnapshotError, addData,
    addData_resume, updateStatus, deleteItem, stockMinus, stockPlus;
    repeat case_match; try done; try (by apply Hsame).
  - unfold authStateChanged. case_decide; [done|].
    unfold run_effect. simpl.
    repeat case_match; try (intros s' Hs; discriminate).
    intros s' Hs. simpl in Hs. injection Hs as <-. simpl.
    split; [congruence|].
    intros h Hh. unfold handles in Hh. simpl in Hh. set_unfold. lia.
  - intros s' Hs. unfold unmount in Hs. simpl in Hs. congruence.
Qed.

(** Something done at the screen is either one of the events, or leaves
    the session and the subscriptions as they are. *)
Lemma perform_moves (a : action) (st : state) :
  (∃ e, perform a st = step e st) ∨ same_subscriptions (perform a st) st.
Proof.
  destruct a; try (left; eexists; reflexivity); right;
    unfold perform; destruct (rendered st); try done;
    unfold addData, updateStatus, deleteItem, stockMinus, stockPlus;
    repeat case_match; done.
Qed.

Lemma cleanup_ok_advance (m : move) (st : state) :
  cleanup_ok st → cleanup_ok (advance m st).
Proof.
  intros Hok. destruct m as [e|a]; simpl; [by apply cleanup_ok_step|].
  destruct (perform_moves a st) as [[e ->]|(Hm & _ & _ & Hc & _ & Hn)];
    [by apply cleanup_ok_step|].
  intros s Hs. rewrite Hm, Hn. apply Hok. by rewrite <- Hc.
Qed.

Lemma cleanup_ok_reachable (st : state) : reachable st → cleanup_ok st.
Proof.
  intros (db_ok & today & ms & ->).
  induction ms as [|m ms IH] using rev_ind.
  - apply cleanup_ok_initial.
  - unfold play. rewrite fold_left_app. simpl. by apply cleanup_ok_advance.
Qed.

(** The store never gives a handle out twice: a detached handle stays
    detached whatever happens next. *)
Lemma detached_step (h : nat) (e : event) (st : state) :
  detached h st → detached h (step e st).
Proof.
  intros [Hl Hn].
  assert (∀ st', listeners st' = listeners st →
                 next_handle st' = next_handle st → detached h st') as Hsame.
  { intros st' Hl' Hn'. unfold detached. by rewrite Hl', Hn'. }
  destruct e; simpl; unfold onSnapshot, onSnapshotError, addData,
    addData_resume, updateStatus, deleteItem, stockMinus, stockPlus;
    repeat case_match; try done; try (by apply Hsame).
  - unfold authStateChanged. case_decide; [done|].
    unfold run_effect, run_cleanup, detached.
    repeat case_match; simpl;
      rewrite ?lookup_insert_ne by lia; rewrite ?lookup_delete_None;
      (split; [|lia]); naive_solver.
  - unfold unmount, run_cleanup, detached.
    repeat case_match; simpl; rewrite ?lookup_delete_None;
      (split; [|lia]); naive_solver.
Qed.

Lemma detached_run (h : nat) (es : list event) (st : state) :
  detached h st → detached h (run es st).
Proof.
  revert st. induction es as [|e es IH]; intros st Hd; simpl; [done|].
  apply IH. by apply detached_step.
Qed.

Lemma detached_advance (h : nat) (m : move) (st : state) :
  detached h st → detached h (advance m st).
Proof.
  intros Hd. destruct m as [e|a]; simpl; [by apply detached_step|].
  destruct (perform_moves a st) as [[e ->]|(_ & _ & _ & _ & Hl & Hn)];
    [by apply detached_step|].
  unfold detached. by rewrite Hl, Hn.
Qed.

Lemma detached_play (h : nat) (ms : list move) (st : state) :
  detached h st → detached h (play ms st).
Proof.
  revert st. induction ms as [|m ms IH]; intros st Hd; simpl; [done|].
  apply IH. by apply detached_advance.
Qed.

(** A notification for a detached handle does nothing at all. *)
Lemma detached_snapshot (h : nat) (docs : list doc) (st : state) :
  detached h st → step (Snapshot h docs) st = st.
Proof. intros [Hl _]. simpl. unfold onSnapshot. by rewrite Hl. Qed.

Lemma teardown_detached (h : nat) (s : subscription) (e : event) (st : state) :
  cleanup_ok st → cleanup st = Some s → h ∈ handles s → teardown e st →
  detached h (step e st).
Proof.
  intros Hok Hs Hh Ht. destruct (Hok s Hs) as [Hm Hlt].
  specialize (Hlt h Hh).
  assert (detached h (run_cleanup st)) as Hd.
  { unfold run_cleanup, detached. rewrite Hs. simpl. split; [|done].
    unfold handles in Hh. set_unfold.
    destruct Hh as [->|[->|[->|[]]]].
    - destruct (decide (unsubOrders s = unsubInventory s)) as [E|];
        [rewrite <- E; apply lookup_delete_eq|].
      rewrite lookup_delete_ne by done.
      destruct (decide (unsubOrders s = unsubExpenses s)) as [E|];
        [rewrite <- E; apply lookup_delete_eq|].
      rewrite lookup_delete_ne by done. apply lookup_delete_eq.
    - destruct (decide (unsubExpenses s = unsubInventory s)) as [E|];
        [rewrite <- E; apply lookup_delete_eq|].
      rewrite lookup_delete_ne by done. apply lookup_delete_eq.
    - apply lookup_delete_eq. }
  destruct Ht as [->|(u & -> & Hu)]; simpl; rewrite Hm.
  - unfold unmount, detached. simpl. apply Hd.
  - unfold authStateChanged. rewrite decide_False by done.
    destruct Hd as [Hl Hn]. unfold run_effect, detached. simpl.
    repeat case_match; simpl; rewrite ?lookup_insert_ne by lia;
      (split; [done|lia]).
Qed.

(** C9: once the synchronizers are torn down (the component unmounts, or
    the user changes and the effect cleans up), a notification for one of
    the unsubscribed listeners, however much later it comes and whatever
    was typed, clicked or delivered before and after the teardown,
    changes nothing: the snapshots stay as they are. *)
Theorem teardown_silences (st : state) (s : subscription) (h : nat)
    (e : event) (ms : list move) (docs : list doc) :
  reachable st →
  cleanup st = Some s →
  h ∈ handles s →
  teardown e st →
  step (Snapshot h docs) (play ms (step e st)) = play ms (step e st)
  ∧ snapshots (step (Snapshot h docs) (play ms (step e st)))
    = snapshots (play ms (step e st)).
Proof.
  intros Hr Hs Hh Ht.
  assert (step (Snapshot h docs) (play ms (step e st)) = play ms (step e st))
    as E.
  { apply detached_snapshot, detached_play.
    apply (teardown_detached h s); [|done..].
    by apply cleanup_ok_reachable. }
  by rewrite E.
Qed.

Lemma teardown_silences_witness :
  let st := play [Happens (AuthStateChanged (Some "u1")); Does ClickNuevo;
                  Does (InputCliente "Ana")]
              (initial true "2024-05-01") in
  let late := [Doc "abc" {[ "cliente" := VStr "Luis" ]}] in
  let after := [Does (InputTotal "100");
                Happens (AuthStateChanged (Some "u1"))] in
  step (Snapshot 0 late) (play after (step (AuthStateChanged None) st))
  = play after (step (AuthStateChanged None) st)
  ∧ snapshots
      (step (Snapshot 0 late) (play after (step (AuthStateChanged None) st)))
    = snapshots (play after (step (AuthStateChanged None) st)).
Proof.
  apply (teardown_silences
           (play [Happens (AuthStateChanged (Some "u1")); Does ClickNuevo;
                  Does (InputCliente "Ana")]
              (initial true "2024-05-01"))
           (Subscription 0 1 2) 0 (AuthStateChanged None)).
  - exists true, "2024-05-01",
      [Happens (AuthStateChanged (Some "u1")); Does ClickNuevo;
       Does (InputCliente "Ana")].
    reflexivity.
  - vm_compute. reflexivity.
  - unfold handles. simpl. apply list_elem_of_here.
  - right. exists None. split; [reflexivity|]. vm_compute. discriminate.
Defined.

(** ** The subscription effect over a whole run *)

Lemma delete_three_inserts (a b c : nat) (x y z : listener) :
  delete c (delete b (delete a
    (<[c := z]> (<[b := y]> (<[a := x]> (∅ : gmap nat listener))))))
  = ∅.
Proof.
  apply map_eq. intros k.
  rewrite !lookup_delete, !lookup_insert, lookup_empty.
  repeat case_decide; done.
Qed.

Lemma subscriptions_ok_initial (db_ok : bool) (today : string) :
  subscriptions_ok (initial db_ok today).
Proof.
  split; [done|]. split; [done|]. simpl.
  split; [by intros [? ?]|]. by intros (_ & [? ?] & _).
Qed.

Lemma run_cleanup_listeners (st : state) :
  listeners st = listeners_of (cleanup st) →
  listeners (run_cleanup st) = ∅.
Proof.
  intros Hl. unfold run_cleanup.
  destruct (cleanup st) as [s|] eqn:E; simpl in *; rewrite Hl.
  - apply delete_three_inserts.
  - done.
Qed.

Lemma run_cleanup_fields (st : state) :
  db (run_cleanup st) = db st ∧ user (run_cleanup st) = user st.
Proof. unfold run_cleanup. by destruct (cleanup st). Qed.

Lemma subscriptions_ok_step (e : event) (st : state) :
  subscriptions_ok st → subscriptions_ok (step e st).
Proof.
  intros Hok.
  assert (∀ st', listeners st' = listeners st → cleanup st' = cleanup st →
                 mounted st' = mounted st → user st' = user st →
                 db st' = db st → subscriptions_ok st') as Hsame.
  { intros st' Hl Hc Hm Hu Hd. unfold subscriptions_ok.
    rewrite Hl, Hc, Hm, Hu, Hd. apply Hok. }
  pose proof Hok as (Hl & Hh & Hiff).
  pose proof (run_cleanup_listeners st Hl) as Hempty.
  destruct (run_cleanup_frame st) as (Hcm & Hcn & Hcc).
  destruct (run_cleanup_fields st) as (Hcd & Hcu).
  destruct e; simpl; unfold onSnapshot, onSnapshotError, addData,
    addData_resume, updateStatus, deleteItem, stockMinus, stockPlus;
    repeat case_match; try done; try (by apply Hsame).
  - (* the user changes *)
    unfold authStateChanged. case_decide as Hu; [done|].
    unfold run_effect. simpl. rewrite Hcd, Hempty.
    destruct u as [uid|]; [destruct (db st) eqn:Hdb|].
    + split; [done|]. split.
      * intros s' Hs. simpl in Hs. by injection Hs as <-.
      * simpl. rewrite Hcm. split; [by eauto|]. by eauto.
    + split; [done|]. split; [done|]. simpl.
      split; [by intros [? ?]|]. intros (_ & _ & ?). congruence.
    + split; [done|]. split; [done|]. simpl.
      split; [by intros [? ?]|]. by intros (_ & [? ?] & _).
  - (* the component goes away *)
    unfold unmount. split; [|split]; simpl.
    + by rewrite Hempty, Hcc.
    + rewrite Hcc. done.
    + rewrite Hcc. split; [by intros [? ?]|]. by intros (? & _).
Qed.

Lemma subscriptions_ok_advance (m : move) (st : state) :
  subscriptions_ok st → subscriptions_ok (advance m st).
Proof.
  intros Hok. destruct m as [e|a]; simpl; [by apply subscriptions_ok_step|].
  destruct (perform_moves a st) as [[e ->]|(Hm & Hd & Hu & Hc & Hl & _)];
    [by apply subscriptions_ok_step|].
  unfold subscriptions_ok. rewrite Hm, Hd, Hu, Hc, Hl. apply Hok.
Qed.

Lemma subscriptions_ok_reachable (st : state) :
  reachable st → subscriptions_ok st.
Proof.
  intros (db_ok & today & ms & ->).
  induction ms as [|m ms IH] using rev_ind.
  - apply subscriptions_ok_initial.
  - unfold play. rewrite fold_left_app. simpl.
    by apply subscriptions_ok_advance.
Qed.

Lemma listeners_of_lookup (s : subscription) (h : nat) (k : listener) :
  unsubExpenses s = S (unsubOrders s) →
  unsubInventory s = S (S (unsubOrders s)) →
  listeners_of (Some s) !! h = Some k →
  (h = unsubOrders s ∧ k = OrdersListener)
  ∨ (h = unsubExpenses s ∧ k = ExpensesListener)
  ∨ (h = unsubInventory s ∧ k = InventoryListener).
Proof.
  intros He Hi. simpl. rewrite !lookup_insert, lookup_empty.
  repeat case_decide; intros [= <-]; auto.
Qed.

Lemma listeners_served (st : state) (h : nat) (k : listener) :
  reachable st → listeners st !! h = Some k →
  ∃ s, cleanup st = Some s
       ∧ ((h = unsubOrders s ∧ k = OrdersListener)
          ∨ (h = unsubExpenses s ∧ k = ExpensesListener)
          ∨ (h = unsubInventory s ∧ k = InventoryListener)).
Proof.
  intros Hr Hk. destruct (subscriptions_ok_reachable st Hr) as (Hl & Hh & _).
  rewrite Hl in Hk.
  destruct (cleanup st) as [s|]; [|done].
  destruct (Hh s eq_refl) as [He Hi].
  exists s. split; [done|]. by apply listeners_of_lookup.
Qed.

(** X3: in every state the component can reach, by events and by
    anything done at the screen, each listener the store serves is one of
    the three handles of the current cleanup closure, serving the
    collection that handle was subscribed for; the three handles are
    distinct. No listener of an earlier run of the effect is left
    behind. *)
Theorem no_listener_leak (st : state) :
  reachable st →
  (∀ h k, listeners st !! h = Some k →
     ∃ s, cleanup st = Some s
          ∧ ((h = unsubOrders s ∧ k = OrdersListener)
             ∨ (h = unsubExpenses s ∧ k = ExpensesListener)
             ∨ (h = unsubInventory s ∧ k = InventoryListener)))
  ∧ (∀ s, cleanup st = Some s →
       NoDup (handles s)
       ∧ listeners st !! unsubOrders s = Some OrdersListener
       ∧ listeners st !! unsubExpenses s = Some ExpensesListener
       ∧ listeners st !! unsubInventory s = Some InventoryListener).
Proof.
  intros Hr. destruct (subscriptions_ok_reachable st Hr) as (Hl & Hh & _).
  split.
  - intros h k Hk. by apply listeners_served.
  - intros s Hs. destruct (Hh s Hs) as [He Hi]. rewrite Hl, Hs.
    unfold handles. rewrite He, Hi. simpl. split.
    + rewrite !NoDup_cons, !elem_of_cons, !elem_of_nil.
      split_and!; try lia. apply NoDup_nil_2.
    + rewrite !lookup_insert. repeat case_decide; try lia; done.
Qed.

Lemma no_listener_leak_witness :
  let st := play [Happens (AuthStateChanged (Some "u1")); Does ClickNuevo;
                  Does (InputCliente "Ana");
                  Happens (AuthStateChanged (Some "u2"))]
              (initial true "2024-05-01") in
  (∀ h k, listeners st !! h = Some k →
     ∃ s, cleanup st = Some s
          ∧ ((h = unsubOrders s ∧ k = OrdersListener)
             ∨ (h = unsubExpenses s ∧ k = ExpensesListener)
             ∨ (h = unsubInventory s ∧ k = InventoryListener)))
  ∧ (∀ s, cleanup st = Some s →
       NoDup (handles s)
       ∧ listeners st !! unsubOrders s = Some OrdersListener
       ∧ listeners st !! unsubExpenses s = Some ExpensesListener
       ∧ listeners st !! unsubInventory s = Some InventoryListener).
Proof.
  apply no_listener_leak.
  exists true, "2024-05-01",
    [Happens (AuthStateChanged (Some "u1")); Does ClickNuevo;
     Does (InputCliente "Ana"); Happens (AuthStateChanged (Some "u2"))].
  reflexivity.
Defined.

(** X4: in every state the component can reach, by events and by
    anything done at the screen, the synchronizers are attached exactly
    when the component is mounted, a user is signed in and the store
    handle exists. *)
Theorem subscribed_iff_session (st : state) :
  reachable st →
  (is_Some (cleanup st)
   ↔ mounted st = true ∧ is_Some (user st) ∧ db st = true).
Proof. intros Hr. apply (subscriptions_ok_reachable st Hr). Qed.

Lemma subscribed_iff_session_witness :
  let st := play [Happens (AuthStateChanged (Some "u1")); Does ClickGasto;
                  Does (InputMonto "35"); Does (ClickGuardar "2024-05-01T10:00");
                  Happens (AuthStateChanged None)]
              (initial true "2024-05-01") in
  is_Some (cleanup st)
  ↔ mounted st = true ∧ is_Some (user st) ∧ db st = true.
Proof.
  apply subscribed_iff_session.
  exists true, "2024-05-01",
    [Happens (AuthStateChanged (Some "u1")); Does ClickGasto;
     Does (InputMonto "35"); Does (ClickGuardar "2024-05-01T10:00");
     Happens (AuthStateChanged None)].
  reflexivity.
Defined.

(** X5: once the component is unmounted, whatever was typed or done
    before, nothing that happens afterwards (an event, or anything tried
    at the screen) changes anything but the console: snapshots, forms,
    modal, user, listeners and submitted writes all stay. *)
Theorem unmounted_is_inert (st : state) (m : move) :
  reachable st → mounted st = false →
  same_but_console (advance m st) st.
Proof.
  intros Hr Hm.
  destruct (subscriptions_ok_reachable st Hr) as (Hl & _ & Hiff).
  assert (cleanup st = None) as Hc.
  { destruct (cleanup st) eqn:E; [|done].
    destruct (proj1 Hiff) as (? & _); [by eauto|congruence]. }
  assert (∀ h, listeners st !! h = None) as Hnone.
  { intros h. by rewrite Hl, Hc. }
  assert (∀ e, same_but_console (step e st) st) as Hstep.
  { intros e. destruct e; simpl; unfold onSnapshot, onSnapshotError;
      rewrite ?Hnone, ?Hm; try done.
    destruct r; done. }
  destruct m as [e|a]; simpl; [apply Hstep|].
  assert (rendered st = false) as Hrend by (unfold rendered; by rewrite Hm).
  destruct a; unfold perform; rewrite ?Hrend; try done;
    match goal with |- same_but_console (step ?e st) st => apply (Hstep e) end.
Qed.

Lemma unmounted_is_inert_witness :
  let st := play [Happens (AuthStateChanged (Some "u1")); Does ClickNuevo;
                  Does (InputCliente "Ana"); Does Unmounted]
              (initial true "2024-05-01") in
  same_but_console (advance (Does (InputTotal "100")) st) st.
Proof.
  apply unmounted_is_inert.
  - exists true, "2024-05-01",
      [Happens (AuthStateChanged (Some "u1")); Does ClickNuevo;
       Does (InputCliente "Ana"); Does Unmounted].
    reflexivity.
  - vm_compute. reflexivity.
Defined.

(** X6: notifications compose. For one listener the later notification
    wins, as if the earlier one had not come; for two different
    listeners, in any state the component can reach by events and by
    anything done at the screen, the order of arrival does not
    matter. *)
Theorem notifications_compose (st : state) (h1 h2 : nat) (S1 S2 : list doc) :
  onSnapshot h1 S2 (onSnapshot h1 S1 st) = onSnapshot h1 S2 st
  ∧ (reachable st → h1 ≠ h2 →
     onSnapshot h1 S1 (onSnapshot h2 S2 st)
     = onSnapshot h2 S2 (onSnapshot h1 S1 st)).
Proof.
  split.
  - unfold onSnapshot. destruct (listeners st !! h1) as [[]|] eqn:E;
      simpl; rewrite ?E; done.
  - intros Hr Hne.
    pose proof (fun h k => listeners_served st h k Hr) as Hin.
    unfold onSnapshot.
    destruct (listeners st !! h1) as [k1|] eqn:E1;
      destruct (listeners st !! h2) as [k2|] eqn:E2.
    + destruct (Hin h1 k1 E1) as (s & Hs & H1).
      destruct (Hin h2 k2 E2) as (s' & Hs' & H2).
      assert (s' = s) as -> by congruence.
      destruct k1, k2; simpl; rewrite ?E1, ?E2; try done;
        exfalso; destruct H1 as [[? ?]|[[? ?]|[? ?]]]; try done;
        destruct H2 as [[? ?]|[[? ?]|[? ?]]]; try done; congruence.
    + destruct k1; simpl; rewrite ?E1, ?E2; done.
    + destruct k2; simpl; rewrite ?E1, ?E2; done.
    + by rewrite E1.
Qed.

Lemma notifications_compose_witness :
  let st := play [Happens (AuthStateChanged (Some "u1")); Does ClickStock;
                  Does (InputNombre "papel")]
              (initial true "2024-05-01") in
  onSnapshot 0 [Doc "a" ∅] (onSnapshot 1 [Doc "b" ∅] st)
  = onSnapshot 1 [Doc "b" ∅] (onSnapshot 0 [Doc "a" ∅] st).
Proof.
  apply (proj2 (notifications_compose
                  (play [Happens (AuthStateChanged (Some "u1"));
                         Does ClickStock; Does (InputNombre "papel")]
                     (initial true "2024-05-01"))
                  0 1 [Doc "a" ∅] [Doc "b" ∅])).
  - exists true, "2024-05-01",
      [Happens (AuthStateChanged (Some "u1")); Does ClickStock;
       Does (InputNombre "papel")].
    reflexivity.
  - lia.
Defined.

(** ** The metrics over whole snapshots *)

Lemma or_else_zero_cases (n : number) :
  or_else n zero = zero ∨ (or_else n zero = n ∧ n ≠ NaN ∧ n ≠ NegZero).
Proof.
  destruct n; simpl; auto.
  unfold or_else, to_boolean. case_bool_decide; simpl; auto.
Qed.

(** A sum of amounts none of which is negative is PosInf or a finite
    number that is not negative. *)
Lemma reduce_no_negative (field : string) (l : list (gmap string value))
    (acc : number) :
  no_negative field l →
  (acc = PosInf ∨ ∃ q, acc = Fin q ∧ (Qc_of_Z 0 ≤ q)%Qc) →
  let r := reduce (fun sum o => add sum (or_else (Number (get o field)) zero))
             acc l in
  r = PosInf ∨ ∃ q, r = Fin q ∧ (Qc_of_Z 0 ≤ q)%Qc.
Proof.
  unfold reduce. revert acc.
  induction l as [|o l IH]; intros acc Hl Hacc; simpl; [done|].
  apply IH.
  { intros o' Ho'. apply Hl. by right. }
  assert (lessThan (Number (get o field)) zero ≠ Some true) as Ho
    by (apply Hl; left).
  destruct (or_else_zero_cases (Number (get o field))) as [->|(-> & Hn & Hz)].
  - destruct Hacc as [->|(q & -> & Hq)]; [by left|right].
    exists q. split; [|done]. by rewrite add_zero_r.
  - destruct (Number (get o field)) as [| | | |q'] eqn:E; try done.
    + destruct Hacc as [->|(q & -> & Hq)]; by left.
    + simpl in Ho.
      assert (Qc_of_Z 0 ≤ q')%Qc as Hq'.
      { apply Qcle_ngt. intros Hlt. apply Ho. f_equal.
        by apply bool_decide_eq_true_2. }
      destruct Hacc as [->|(q & -> & Hq)]; [by left|right].
      exists (q + q')%Qc. split; [done|].
      rewrite Qc_of_Z_0 in *. by apply Qcplus_nonneg_nonneg.
Qed.

(** X7: when no order, and no expense, has a negative amount (amounts
    that are missing or not numbers count as none), the three totals are
    neither NaN nor negative. *)
Theorem totals_not_negative (orders expenses : list (gmap string value)) :
  (no_negative "total" orders →
   lessThan (totalVentas (stats orders expenses)) zero = Some false)
  ∧ (no_negative "adelanto" orders →
     lessThan (totalRecaudado (stats orders expenses)) zero = Some false)
  ∧ (no_negative "monto" expenses →
     lessThan (totalGastos (stats orders expenses)) zero = Some false).
Proof.
  assert (∀ r, (r = PosInf ∨ ∃ q, r = Fin q ∧ (Qc_of_Z 0 ≤ q)%Qc) →
               lessThan r zero = Some false) as Hsign.
  { intros r [->|(q & -> & Hq)]; [done|]. simpl. f_equal.
    apply bool_decide_eq_false_2. by apply Qcle_ngt. }
  assert (zero = PosInf ∨ ∃ q, zero = Fin q ∧ (Qc_of_Z 0 ≤ q)%Qc) as Hz.
  { right. exists (Qc_of_Z 0). split; [done|]. apply Qcle_refl. }
  split; [|split]; intros Hn; apply Hsign; simpl;
    by apply reduce_no_negative.
Qed.

Lemma totals_not_negative_witness :
  lessThan
    (totalVentas
       (stats [ {[ "total" := VStr "12.50" ]}; {[ "total" := VStr "n/a" ]};
                {[ "cliente" := VStr "Ana" ]} ] []))
    zero
  = Some false.
Proof.
  apply (proj1 (totals_not_negative
                  [ {[ "total" := VStr "12.50" ]}; {[ "total" := VStr "n/a" ]};
                    {[ "cliente" := VStr "Ana" ]} ] [])).
  intros o Ho.
  apply list_elem_of_In in Ho.
  destruct Ho as [<-|[<-|[<-|[]]]]; vm_compute; discriminate.
Defined.

Lemma sum_field_to_record (field : string) (S : list doc) :
  field ≠ "id" →
  Spec.sum_field field (map to_record S) = Spec.sum_field field (map doc_data S).
Proof.
  intros Hf. unfold Spec.sum_field. f_equal. rewrite !map_map.
  apply map_ext. intros d. unfold Spec.contribution.
  by rewrite (to_record_lookup_field d field Hf).
Qed.

Lemma activeOrderCount_to_record (S : list doc) :
  Spec.activeOrderCount (map to_record S)
  = Spec.activeOrderCount (map doc_data S).
Proof.
  unfold Spec.activeOrderCount.
  induction S as [|d S IH]; [done|].
  assert (get (to_record d) "estado" = get (doc_data d) "estado") as Hget.
  { unfold get. by rewrite (to_record_lookup_field d "estado"). }
  rewrite !map_cons. cbn [List.filter]. rewrite Hget.
  destruct (bool_decide _); cbn [length]; by rewrite IH.
Qed.

(** X8: after a notification for the orders listener, the sales and
    collected totals and the active-order count of the dashboard are
    those of the data of the delivered documents: neither the previous
    orders nor the id tag play a part; the expenses total is as
    before. *)
Theorem metrics_after_notification (h : nat) (S : list doc) (st : state) :
  listeners st !! h = Some OrdersListener →
  let st' := onSnapshot h S st in
  totalVentas (stats (orders st') (expenses st'))
  = Spec.sum_field "total" (map doc_data S)
  ∧ totalRecaudado (stats (orders st') (expenses st'))
    = Spec.sum_field "adelanto" (map doc_data S)
  ∧ pedidosPendientes (stats (orders st') (expenses st'))
    = Spec.activeOrderCount (map doc_data S)
  ∧ totalGastos (stats (orders st') (expenses st'))
    = totalGastos (stats (orders st) (expenses st)).
Proof.
  intros Hh st'.
  assert (orders st' = map to_record S ∧ expenses st' = expenses st)
    as [-> ->].
  { unfold st', onSnapshot. by rewrite Hh. }
  destruct (stats_fields (map to_record S) (expenses st)) as (-> & -> & _).
  rewrite !sum_field_to_record by done.
  split; [done|]. split; [done|]. split; [|done].
  rewrite <- activeOrderCount_to_record.
  rewrite pedidosPendientes_unfold. unfold Spec.activeOrderCount.
  f_equal. apply filter_ext. intros o. apply strict_neq_spec.
Qed.

Lemma metrics_after_notification_witness :
  let st := run [AuthStateChanged (Some "u1")] (initial true "2024-05-01") in
  let S := [Doc "a" {[ "total" := VNum (of_Z 10) ]}] in
  let st' := onSnapshot 0 S st in
  totalVentas (stats (orders st') (expenses st'))
  = Spec.sum_field "total" (map doc_data S)
  ∧ totalRecaudado (stats (orders st') (expenses st'))
    = Spec.sum_field "adelanto" (map doc_data S)
  ∧ pedidosPendientes (stats (orders st') (expenses st'))
    = Spec.activeOrderCount (map doc_data S)
  ∧ totalGastos (stats (orders st') (expenses st'))
    = totalGastos (stats (orders st) (expenses st)).
Proof.
  apply (metrics_after_notification 0
           [Doc "a" {[ "total" := VNum (of_Z 10) ]}]
           (run [AuthStateChanged (Some "u1")] (initial true "2024-05-01"))).
  vm_compute. reflexivity.
Defined.

(** ** The stock buttons one after the other *)

Lemma get_merged_stock (i : gmap string value) (v : value) (k : string) :
  get (merged i {[ "stock" := v ]}) k
  = if decide (k = "stock") then v else get i k.
Proof.
  unfold get, merged, spread. rewrite lookup_union.
  case_decide as Hk.
  - subst. rewrite lookup_singleton_eq. by destruct (i !! "stock").
  - rewrite lookup_singleton_ne by done. by destruct (i !! k).
Qed.

Lemma get_merged_stock_eq (i : gmap string value) (v : value) :
  get (merged i {[ "stock" := v ]}) "stock" = v.
Proof. by rewrite get_merged_stock. Qed.

Lemma get_merged_stock_ne (i : gmap string value) (v : value) (k : string) :
  k ≠ "stock" → get (merged i {[ "stock" := v ]}) k = get i k.
Proof. intros Hk. rewrite get_merged_stock. by rewrite decide_False. Qed.

Lemma stock_plus_fields_whole (i : gmap string value) (s : Z) :
  get i "stock" = VNum (of_Z s) →
  stock_plus_fields i = {[ "stock" := VNum (of_Z (s + 1)) ]}.
Proof.
  intros Hi. unfold stock_plus_fields. rewrite Hi.
  change (ToNumber (VNum (of_Z s))) with (of_Z s).
  unfold add, of_Z, one. by rewrite Z2Qc_inj_add.
Qed.

(** X9: for an item whose stock is a whole number s with
    0 <= s <= 2^53 - 1 (the whole numbers a double counts one by one),
    pressing [+] and then [-] (each on the record with the submitted
    stock merged in) submits s again; pressing [-] and then [+] submits
    max(1, s): it gives s back only for s >= 1, because [-] stops at
    0. *)
Theorem stock_buttons_round_trip (i : gmap string value) (s : Z) :
  (0 ≤ s ≤ 9007199254740991)%Z →
  get i "stock" = VNum (of_Z s) →
  stock_minus_fields (merged i (stock_plus_fields i))
  = {[ "stock" := VNum (of_Z s) ]}
  ∧ stock_plus_fields (merged i (stock_minus_fields i))
    = {[ "stock" := VNum (of_Z (Z.max 1 s)) ]}.
Proof.
  intros [Hs _] Hi. split.
  - rewrite (stock_plus_fields_whole i s Hi).
    rewrite (stock_minus_fields_whole _ (s + 1)); [|lia|].
    + by replace (Z.max 0 (s + 1 - 1)) with s by lia.
    + by rewrite get_merged_stock_eq.
  - rewrite (stock_minus_fields_whole i s Hs Hi).
    rewrite (stock_plus_fields_whole _ (Z.max 0 (s - 1))).
    + by replace (Z.max 0 (s - 1) + 1)%Z with (Z.max 1 s) by lia.
    + by rewrite get_merged_stock_eq.
Qed.

Lemma stock_buttons_round_trip_witness :
  stock_minus_fields
    (merged {[ "stock" := VNum (of_Z 0) ]}
       (stock_plus_fields {[ "stock" := VNum (of_Z 0) ]}))
  = {[ "stock" := VNum (of_Z 0) ]}
  ∧ stock_plus_fields
      (merged {[ "stock" := VNum (of_Z 0) ]}
         (stock_minus_fields {[ "stock" := VNum (of_Z 0) ]}))
    = {[ "stock" := VNum (of_Z (Z.max 1 0)) ]}.
Proof.
  apply (stock_buttons_round_trip {[ "stock" := VNum (of_Z 0) ]} 0);
    [lia | reflexivity].
Defined.

(** X10: the stock buttons never flip the alert the wrong way. An item
    with a whole stock s >= 0 that is low stays low after [-]; an item
    with a whole stock that is not low stays so after [+]. *)
Theorem stock_buttons_keep_alert (i : gmap string value) (s : Z) (m : Qc) :
  get i "stock" = VNum (of_Z s) →
  get i "minimo" = VNum (Fin m) →
  ((0 ≤ s)%Z → isLowStock i = true →
   isLowStock (merged i (stock_minus_fields i)) = true)
  ∧ (isLowStock i = false →
     isLowStock (merged i (stock_plus_fields i)) = false).
Proof.
  intros Hi Hm.
  assert (isLowStock i = true ↔ (Qc_of_Z s ≤ m)%Qc) as Hlow.
  { unfold isLowStock. rewrite Hi, Hm. apply js_le_finite. }
  split.
  - intros Hs Hl. apply Hlow in Hl.
    rewrite (stock_minus_fields_whole i s Hs Hi).
    unfold isLowStock.
    rewrite get_merged_stock_eq, get_merged_stock_ne, Hm by done.
    apply js_le_finite.
    apply Qcle_trans with (Qc_of_Z s); [|done].
    apply (proj1 (Z2Qc_inj_le _ _)). lia.
  - intros Hl. rewrite (stock_plus_fields_whole i s Hi).
    unfold isLowStock.
    rewrite get_merged_stock_eq, get_merged_stock_ne, Hm by done.
    apply not_true_is_false. intros Hl'. apply js_le_finite in Hl'.
    apply not_true_iff_false in Hl. apply Hl, Hlow.
    apply Qcle_trans with (Qc_of_Z (s + 1)); [|done].
    apply (proj1 (Z2Qc_inj_le _ _)). lia.
Qed.

Lemma stock_buttons_keep_alert_witness :
  isLowStock
    (merged (list_to_map [("stock", VNum (of_Z 3));
                          ("minimo", VNum (Fin (Qc_of_Z 5)))])
       (stock_minus_fields
          (list_to_map [("stock", VNum (of_Z 3));
                        ("minimo", VNum (Fin (Qc_of_Z 5)))])))
  = true.
Proof.
  refine (proj1 (stock_buttons_keep_alert
                   (list_to_map [("stock", VNum (of_Z 3));
                                 ("minimo", VNum (Fin (Qc_of_Z 5)))])
                   3 (Qc_of_Z 5) _ _) _ _);
    [reflexivity | reflexivity | lia | vm_compute; reflexivity].
Defined.

(** ** The finance tab of the fuller variant *)

Lemma sub_finite (t a : Qc) : sub (Fin t) (Fin a) = Fin (t - a)%Qc.
Proof.
  unfold sub, neg. case_decide as Ha; simpl; [|done].
  subst. f_equal. rewrite Qc_of_Z_0. ring.
Qed.

(** X11: the "Saldo" of an order row has no fallback of its own: it is
    NaN as soon as the total or the advance does not coerce to a number
    (while the totals count such an amount as 0), and for two finite
    amounts it is negative exactly when the advance exceeds the total. *)
Theorem saldo_edges (order : gmap string value) :
  (Number (get order "total") = NaN ∨ Number (get order "adelanto") = NaN →
   saldo order = NaN)
  ∧ (∀ t a : Qc,
       Number (get order "total") = Fin t →
       Number (get order "adelanto") = Fin a →
       (lessThan (saldo order) zero = Some true ↔ (t < a)%Qc)).
Proof.
  unfold saldo, Number. split.
  - intros [->| ->]; [done|]. unfold sub. simpl.
    by destruct (ToNumber (get order "total")).
  - intros t a -> ->. rewrite sub_finite. simpl.
    rewrite Qc_of_Z_0. split.
    + intros [= H%bool_decide_eq_true_1].
      apply (Qcplus_lt_mono_r _ _ a) in H.
      by replace (t - a + a)%Qc with t in H by ring;
         rewrite Qcplus_0_l in H.
    + intros H. f_equal. apply bool_decide_eq_true_2.
      apply (Qcplus_lt_mono_r _ _ a).
      by replace (t - a + a)%Qc with t by ring; rewrite Qcplus_0_l.
Qed.

Lemma saldo_edges_witness :
  saldo {[ "total" := VNum (of_Z 100) ]} = NaN.
Proof.
  apply (proj1 (saldo_edges {[ "total" := VNum (of_Z 100) ]})).
  right. reflexivity.
Defined.

(** X12: the "Ingresos por Pedido" list shows at most five orders, all of
    them orders of the snapshot in the snapshot's order, and each with an
    advance that coerces to a number greater than 0; an order whose
    advance is missing, zero, negative or not a number is never
    shown. *)
Theorem ingresosPorPedido_shown (orders : list (gmap string value)) :
  length (ingresosPorPedido orders) ≤ 5
  ∧ sublist (ingresosPorPedido orders) orders
  ∧ ∀ o, o ∈ ingresosPorPedido orders →
         lessThan zero (Number (get o "adelanto")) = Some true.
Proof.
  unfold ingresosPorPedido. rewrite (slice_prefix 5).
  split; [rewrite length_take; lia|]. split.
  - etrans; [apply sublist_take|apply filter_sublist].
  - intros o Ho. apply elem_of_take in Ho as (k & Ho & _).
    apply list_elem_of_lookup_2, list_elem_of_In, filter_In in Ho as [_ Hgt].
    unfold js_gt, is_less_than in Hgt.
    destruct (get o "adelanto"); simpl in *;
      by repeat case_match.
Qed.

Lemma ingresosPorPedido_shown_witness :
  lessThan zero (Number (get {[ "adelanto" := VStr "200" ]} "adelanto"))
  = Some true.
Proof.
  apply (proj2 (proj2 (ingresosPorPedido_shown
                         [ {[ "adelanto" := VStr "200" ]};
                           {[ "adelanto" := VStr "" ]} ]))).
  vm_compute. apply list_elem_of_here.
Defined.

(** ** Sessions at the screen *)

Lemma lookup_spread_singleton (f : gmap string value) (k k' : string)
    (v : value) :
  spread f {[ k := v ]} !! k' = if decide (k = k') then Some v else f !! k'.
Proof.
  unfold spread. rewrite lookup_union. case_decide as Hk.
  - subst. rewrite lookup_singleton_eq. by destruct (f !! k').
  - rewrite lookup_singleton_ne by done. by destruct (f !! k').
Qed.

Lemma forms_ok_initial (db_ok : bool) (today : string) :
  forms_ok today (initial db_ok today).
Proof.
  unfold forms_ok, is_text, is_number. simpl.
  repeat split; try done; by eexists.
Qed.

(** What the world does to the component leaves forms and submitted
    writes alone. *)
Lemma step_world_frame (e : event) (st : state) :
  match e with
  | Snapshot _ _ | SnapshotError _ _ | AddDataSettled _
  | AuthStateChanged _ | Unmount =>
      forms (step e st) = forms st ∧ outbox (step e st) = outbox st
  | _ => True
  end.
Proof.
  destruct e; try done; simpl;
    unfold onSnapshot, onSnapshotError, addData_resume, authStateChanged,
      unmount, run_effect, run_cleanup;
    repeat case_match; done.
Qed.

Lemma forms_ok_frame (today : string) (st st' : state) :
  forms st' = forms st → forms_ok today st → forms_ok today st'.
Proof.
  unfold forms, forms_ok. intros [= -> -> ->]. done.
Qed.

Lemma addData_outbox (type : string) (data : gmap string value) (now : string)
    (st : state) :
  outbox (addData type data now st) = outbox st
  ∨ outbox (addData type data now st)
    = outbox st ++ [AddDoc type (spread data {[ "createdAt" := VStr now ]})].
Proof. unfold addData. destruct (db st); auto. Qed.

Ltac form_fields :=
  unfold is_text, is_number in *;
  rewrite ?lookup_spread_singleton;
  repeat case_decide; try done; try (by eexists).

Lemma session_invariant (today : string) (a : action) (st : state) :
  forms_ok today st ∧ Forall (write_ok today) (outbox st) →
  forms_ok today (perform a st)
  ∧ Forall (write_ok today) (outbox (perform a st)).
Proof.
  intros [Hf Hw].
  assert (∀ st', forms st' = forms st → outbox st' = outbox st →
                 forms_ok today st'
                 ∧ Forall (write_ok today) (outbox st')) as Hsame.
  { intros st' Hf' Hw'. rewrite Hw'. split; [|done].
    by apply (forms_ok_frame today st). }
  assert (∀ st' w, forms st' = forms st →
                   (outbox st' = outbox st ∨ outbox st' = outbox st ++ [w]) →
                   write_ok today w →
                   forms_ok today st'
                   ∧ Forall (write_ok today) (outbox st')) as Hsent.
  { intros st' w Hf' [Hw'|Hw'] Hok; [by apply Hsame|].
    split; [by apply (forms_ok_frame today st)|].
    rewrite Hw'. apply Forall_app. split; [done|]. by constructor. }
  pose proof Hf as ((Ho1 & Ho2 & Ho3 & Ho4 & Ho5)
                    & (He1 & He2 & He3) & (Hi1 & Hi2 & Hi3)).
  destruct a; unfold perform;
    try (by (apply Hsame; [apply (step_world_frame (Snapshot _ _))
                          |apply (step_world_frame (Snapshot _ _))]));
    try (by (apply Hsame; [apply (step_world_frame (SnapshotError _ _))
                          |apply (step_world_frame (SnapshotError _ _))]));
    try (by (apply Hsame; [apply (step_world_frame (AddDataSettled _))
                          |apply (step_world_frame (AddDataSettled _))]));
    try (by (apply Hsame; [apply (step_world_frame (AuthStateChanged _))
                          |apply (step_world_frame (AuthStateChanged _))]));
    try (by (apply Hsame; [apply (step_world_frame Unmount)
                          |apply (step_world_frame Unmount)]));
    destruct (rendered st); try done;
    try (by apply Hsame);
    repeat case_match; try done; try (by apply Hsame);
    try (split; [|done]; unfold forms_ok; simpl; repeat split; form_fields).
  - (* an order is saved *)
    eapply Hsent; [by unfold addData; destruct (db st)|apply addData_outbox|].
    split; [form_fields|]. left. repeat split; form_fields.
  - (* an expense is saved *)
    eapply Hsent; [by unfold addData; destruct (db st)|apply addData_outbox|].
    split; [form_fields|]. right. left. repeat split; form_fields.
  - (* an inventory item is saved *)
    eapply Hsent; [by unfold addData; destruct (db st)|apply addData_outbox|].
    split; [form_fields|]. right. right. repeat split; form_fields.
  - (* a status is chosen *)
    eapply Hsent with (w := UpdateDoc "orders" _ _);
      [by unfold updateStatus; destruct (db st)
      |unfold updateStatus; destruct (db st); eauto|].
    left. split; [done|]. eexists. split; [|done].
    by eapply bool_decide_eq_true_1.
  - eapply Hsent with (w := DeleteDoc "orders" _);
      [by unfold deleteItem; destruct (db st)
      |unfold deleteItem; destruct (db st); eauto|].
    simpl. rewrite !elem_of_cons. auto.
  - eapply Hsent with (w := DeleteDoc "expenses" _);
      [by unfold deleteItem; destruct (db st)
      |unfold deleteItem; destruct (db st); eauto|].
    simpl. rewrite !elem_of_cons. auto.
  - eapply Hsent with (w := DeleteDoc "inventory" _);
      [by unfold deleteItem; destruct (db st)
      |unfold deleteItem; destruct (db st); eauto|].
    simpl. rewrite !elem_of_cons. auto.
  - eapply Hsent with (w := UpdateDoc "inventory" _ _);
      [by unfold stockMinus; destruct (db st)
      |unfold stockMinus; destruct (db st); eauto|].
    right. split; [done|]. by eexists.
  - eapply Hsent with (w := UpdateDoc "inventory" _ _);
      [by unfold stockPlus; destruct (db st)
      |unfold stockPlus; destruct (db st); eauto|].
    right. split; [done|]. by eexists.
Qed.

(** X13: in any session at the screen, from the first render on, every
    document created through a modal has a createdAt; an order is
    created with estado "Pendiente", an empty descripcion and numeric
    total and adelanto; an expense with a numeric monto and the date of
    the first render; an inventory item with a numeric stock and minimo
    5. Every update sets only estado, to one of the five options, or
    only stock; every delete is in one of the three collections. *)
Theorem session_writes (db_ok : bool) (today : string) (acts : list action) :
  Forall (write_ok today) (outbox (session acts (initial db_ok today))).
Proof.
  assert (forms_ok today (session acts (initial db_ok today))
          ∧ Forall (write_ok today)
              (outbox (session acts (initial db_ok today)))) as [_ H];
    [|done].
  induction acts as [|a acts IH] using rev_ind.
  - split; [apply forms_ok_initial|constructor].
  - unfold session. rewrite fold_left_app. simpl.
    by apply session_invariant.
Qed.

Lemma perform_forms (a : action) (st : state) :
  typing a = false → forms (perform a st) = forms st.
Proof.
  intros Ha. destruct a; try discriminate; unfold perform;
    try (apply (step_world_frame (Snapshot _ _)));
    try (apply (step_world_frame (SnapshotError _ _)));
    try (apply (step_world_frame (AddDataSettled _)));
    try (apply (step_world_frame (AuthStateChanged _)));
    try (apply (step_world_frame Unmount));
    destruct (rendered st); try done;
    unfold addData, updateStatus, deleteItem, stockMinus, stockPlus;
    repeat case_match; done.
Qed.

(** X14: only typing changes a form. Saving, closing or reopening a
    modal, and anything the store or the session does, leave the three
    forms as they are: a modal opened again after a save holds the
    values of the previous entry. *)
Theorem forms_persist (acts : list action) (st : state) :
  Forall (fun a => typing a = false) acts →
  forms (session acts st) = forms st.
Proof.
  revert st. induction acts as [|a acts IH]; intros st Hacts; [done|].
  apply Forall_cons in Hacts as [Ha Hacts]. simpl.
  rewrite IH by done. by apply perform_forms.
Qed.

Lemma forms_persist_witness :
  forms (session [ClickGuardar "2024-05-01T10:00:00.000Z";
                  WriteSettled Acknowledged; ClickNuevo]
           (session [AuthChanged (Some "u1"); ClickNuevo; InputCliente "Ana";
                     InputTotal "100"]
              (initial true "2024-05-01")))
  = forms (session [AuthChanged (Some "u1"); ClickNuevo; InputCliente "Ana";
                    InputTotal "100"]
             (initial true "2024-05-01")).
Proof.
  apply forms_persist. repeat constructor.
Defined.

Lemma rendered_setOrders (v : list (gmap string value)) (st : state) :
  rendered (setOrders v st) = rendered st.
Proof. reflexivity. Qed.

(** X15: the buttons of an order row address the document the row was
    built from. After a notification delivered the documents S to the
    orders listener, the delete button of row k submits the delete of
    the document S[k], and the status select its update, provided the
    data of that document has no field named id. *)
Theorem row_buttons_address (st : state) (h row : nat) (S : list doc)
    (d : doc) (s : string) :
  rendered st = true →
  db st = true →
  listeners st !! h = Some OrdersListener →
  S !! row = Some d →
  doc_data d !! "id" = None →
  s ∈ estados →
  outbox (perform (ClickBorrarPedido row) (perform (Notified h S) st))
  = outbox st ++ [DeleteDoc "orders" (VStr (doc_id d))]
  ∧ outbox (perform (SelectEstado row s) (perform (Notified h S) st))
    = outbox st ++
      [UpdateDoc "orders" (VStr (doc_id d)) {[ "estado" := VStr s ]}].
Proof.
  intros Hr Hdb Hh HS Hd Hs.
  assert (perform (Notified h S) st = setOrders (map to_record S) st) as ->.
  { simpl. unfold onSnapshot. by rewrite Hh. }
  assert (get (to_record d) "id" = VStr (doc_id d)) as Hid.
  { unfold get. by rewrite to_record_lookup_id, Hd. }
  unfold perform. rewrite rendered_setOrders, Hr.
  assert (orders (setOrders (map to_record S) st) !! row
          = Some (to_record d)) as ->.
  { simpl. by rewrite list_lookup_fmap, HS. }
  rewrite Hid, (bool_decide_eq_true_2 _ Hs).
  unfold deleteItem, updateStatus. simpl. by rewrite Hdb.
Qed.

Lemma row_buttons_address_witness :
  let st := session [AuthChanged (Some "u1")] (initial true "2024-05-01") in
  let S := [Doc "abc" {[ "cliente" := VStr "Ana" ]}] in
  outbox (perform (ClickBorrarPedido 0) (perform (Notified 0 S) st))
  = outbox st ++ [DeleteDoc "orders" (VStr "abc")]
  ∧ outbox (perform (SelectEstado 0 "Listo") (perform (Notified 0 S) st))
    = outbox st ++
      [UpdateDoc "orders" (VStr "abc") {[ "estado" := VStr "Listo" ]}].
Proof.
  apply (row_buttons_address
           (session [AuthChanged (Some "u1")] (initial true "2024-05-01"))
           0 0 [Doc "abc" {[ "cliente" := VStr "Ana" ]}]
           (Doc "abc" {[ "cliente" := VStr "Ana" ]}) "Listo").
  - reflexivity.
  - reflexivity.
  - vm_compute. reflexivity.
  - reflexivity.
  - reflexivity.
  - unfold estados. rewrite !elem_of_cons. auto.
Defined.
